(** * outclaw: specifier resolution, skill documents and the local registry

    A shallow embedding of the decision logic of the outclaw command line
    tool: [parseSkillSpecifier], [fetchFromGitHub], [fetchFromRegistry] and
    [installCommand] (commands/install.ts), [uninstallCommand]
    (commands/uninstall.ts), [logoutCommand] (commands/logout.ts),
    [SkillManager] (core/skill-manager.ts), the credentials (core/config.ts),
    the paths of a scope (utils/paths.ts), [SkillFrontmatterSchema]
    (schemas/skill.schema.ts) and [SkillParser.parse] / [generateSkillMd]
    (parsers/skill-parser.ts).

    JavaScript strings are modelled as Rocq strings, that is as sequences of
    code units in the range 0..255.  Thrown exceptions are modelled by the
    [Throw] constructor of [result]. *)

From Stdlib Require Import Ascii.
From stdpp Require Import base option list strings pretty gmap.

Local Open Scope char_scope.
Local Open Scope stdpp_scope.

(** ** Exceptions and results *)

(** The exception classes thrown by the embedded code. [Error] carries the
    message of a plain [new Error(msg)]; [TypeError] is what the platform's
    [URL] constructor throws; [ZodError] carries the path and the message of
    the first schema issue (the issue code where the schema gives no message
    of its own); [YAMLException] is the front-matter library's failure;
    [ApiError] is the registry client's. *)
Inductive exn : Type :=
  | Error (message : string)
  | TypeError (message : string)
  | ZodError (path message : string)
  | YAMLException
  | ApiError (message : string) (statusCode : Z).

Inductive result (A : Type) : Type :=
  | Ok (a : A)
  | Throw (e : exn).
Arguments Ok {A} a.
Arguments Throw {A} e.

Global Instance result_ret : MRet result := @Ok.
Global Instance result_bind : MBind result := λ A B k r,
  match r with
  | Ok a => k a
  | Throw e => Throw e
  end.

(** ** The string and array primitives of the platform *)

Module JS.

(** [s.startsWith(p)] *)
Fixpoint startsWith (s p : string) {struct p} : bool :=
  match p, s with
  | EmptyString, _ => true
  | String _ _, EmptyString => false
  | String c p', String d s' => Ascii.eqb c d && startsWith s' p'
  end.

(** [s.includes(p)] *)
Fixpoint includes (s p : string) : bool :=
  startsWith s p ||
  match s with
  | EmptyString => false
  | String _ s' => includes s' p
  end.

(** [s.length] *)
Definition length (s : string) : nat := String.length s.

(** [s.slice(n)] for a non-negative [n] *)
Fixpoint slice (n : nat) (s : string) : string :=
  match n, s with
  | O, _ => s
  | S _, EmptyString => EmptyString
  | S n', String _ s' => slice n' s'
  end.

(** the first [n] code units of [s]: [s.slice(0, n)] *)
Fixpoint take (n : nat) (s : string) : string :=
  match n, s with
  | O, _ => EmptyString
  | S _, EmptyString => EmptyString
  | S n', String c s' => String c (take n' s')
  end.

(** [s.slice(0, -k)]: everything but the last [k] code units *)
Definition slice_0_neg (k : nat) (s : string) : string :=
  take (length s - k) s.

(** [s.endsWith(p)] *)
Definition endsWith (s p : string) : bool :=
  (length p <=? length s)%nat &&
  String.eqb (slice (length s - length p) s) p.

(** [s.split(sep)] for a separator of one code unit, the only kind the
    embedded code uses.  The result is never empty. *)
Fixpoint split (sep : ascii) (s : string) : list string :=
  match s with
  | EmptyString => [EmptyString]
  | String c s' =>
      if Ascii.eqb c sep then EmptyString :: split sep s'
      else match split sep s' with
           | h :: t => String c h :: t
           | [] => [String c EmptyString]
           end
  end.

(** [a.join(sep)] *)
Fixpoint join (sep : string) (a : list string) : string :=
  match a with
  | [] => EmptyString
  | [x] => x
  | x :: t => x +:+ sep +:+ join sep t
  end.

(** truthiness of a string: the empty string is falsy *)
Definition truthy (s : string) : bool :=
  match s with
  | EmptyString => false
  | String _ _ => true
  end.

(** truthiness of a possibly undefined string *)
Definition truthy_opt (o : option string) : bool :=
  match o with
  | Some s => truthy s
  | None => false
  end.

(** [a || b] on possibly undefined strings *)
Definition or_else (a b : option string) : option string :=
  if truthy_opt a then a else b.

(** [s || undefined] *)
Definition or_undefined (s : string) : option string :=
  if truthy s then Some s else None.

Definition is_upper (c : ascii) : bool :=
  (65 <=? nat_of_ascii c)%nat && (nat_of_ascii c <=? 90)%nat.
Definition is_lower (c : ascii) : bool :=
  (97 <=? nat_of_ascii c)%nat && (nat_of_ascii c <=? 122)%nat.
Definition is_digit (c : ascii) : bool :=
  (48 <=? nat_of_ascii c)%nat && (nat_of_ascii c <=? 57)%nat.
Definition is_alpha (c : ascii) : bool := is_upper c || is_lower c.

(** the capital letters of the range 128..255 *)
Definition is_upper_latin1 (c : ascii) : bool :=
  (192 <=? nat_of_ascii c)%nat && (nat_of_ascii c <=? 222)%nat
  && negb (nat_of_ascii c =? 215)%nat.

(** lower-casing of one code unit *)
Definition lower (c : ascii) : ascii :=
  if is_upper c || is_upper_latin1 c
  then ascii_of_nat (nat_of_ascii c + 32) else c.

(** [s.toLowerCase()] *)
Fixpoint toLowerCase (s : string) : string :=
  match s with
  | EmptyString => EmptyString
  | String c s' => String (lower c) (toLowerCase s')
  end.

(** White space and line terminators removed by [trim], within 0..255 *)
Definition is_white (c : ascii) : bool :=
  match nat_of_ascii c with
  | 9 | 10 | 11 | 12 | 13 | 32 | 160 => true
  | _ => false
  end.

Fixpoint trimStart (s : string) : string :=
  match s with
  | EmptyString => EmptyString
  | String c s' => if is_white c then trimStart s' else s
  end.

(** [trimEnd] keeps a code unit when it is not white space or when
    something is kept after it. *)
Fixpoint trimEnd (s : string) : string :=
  match s with
  | EmptyString => EmptyString
  | String c s' =>
      match trimEnd s' with
      | EmptyString => if is_white c then EmptyString else String c EmptyString
      | r => String c r
      end
  end.

(** [s.trim()] *)
Definition trim (s : string) : string := trimEnd (trimStart s).

(** all code units of [s] satisfy [P]: how a pattern [^[class]*$] tests *)
Fixpoint all_chars (P : ascii → bool) (s : string) : bool :=
  match s with
  | EmptyString => true
  | String c s' => P c && all_chars P s'
  end.

(** the line feed *)
Definition nl : string := String "010" EmptyString.

(** the double quote, for the messages that hold one *)
Definition dq : string := String "034" EmptyString.

(** line terminators, for [.], [^] and [$] of a regular expression *)
Definition is_line_terminator (c : ascii) : bool :=
  match nat_of_ascii c with
  | 10 | 13 => true
  | _ => false
  end.

End JS.

(** ** Specifier resolution (commands/install.ts) *)

Module Resolver.

Inductive SourceType : Type := github | url | local | registry.

(** [interface ParsedSource]: a type tag and optional fields. *)
Record ParsedSource : Type := mkParsedSource {
  type : SourceType;
  owner : option string;
  repo : option string;
  skillPath : option string;
  ref : option string;
  url_ : option string;
  localPath : option string;
  registryId : option string;
}.

(** *** [UUID_PATTERN]
    [/^[0-9a-f]{8}-[0-9a-f]{4}-[0-9a-f]{4}-[0-9a-f]{4}-[0-9a-f]{12}$/i] *)

(** the class [[0-9a-f]] under the [i] flag *)
Definition is_hex (c : ascii) : bool :=
  JS.is_digit c ||
  ((97 <=? nat_of_ascii c)%nat && (nat_of_ascii c <=? 102)%nat) ||
  ((65 <=? nat_of_ascii c)%nat && (nat_of_ascii c <=? 70)%nat).

(** [[0-9a-f]{n}] at the head of [s]: the rest of the input on a match *)
Fixpoint hex_run (n : nat) (s : string) : option string :=
  match n with
  | O => Some s
  | S n' =>
      match s with
      | String c s' => if is_hex c then hex_run n' s' else None
      | EmptyString => None
      end
  end.

(** a literal [-] at the head of [s] *)
Definition dash (s : string) : option string :=
  match s with
  | String c s' => if Ascii.eqb c "-" then Some s' else None
  | EmptyString => None
  end.

(** [UUID_PATTERN.test(s)]; the anchors make the match cover all of [s]. *)
Definition UUID_PATTERN_test (s : string) : bool :=
  match
    s1 ← hex_run 8 s; s2 ← dash s1;
    s3 ← hex_run 4 s2; s4 ← dash s3;
    s5 ← hex_run 4 s4; s6 ← dash s5;
    s7 ← hex_run 4 s6; s8 ← dash s7;
    hex_run 12 s8
  with
  | Some EmptyString => true
  | _ => false
  end.

(** *** The platform's [URL] constructor

    [new URL(input)] without a base runs the URL parser from its scheme
    start state.  The scheme start state and the scheme state are embedded
    here as the URL standard gives them; what the parser does once a scheme
    has been read (authority, host, port, path, query and fragment states)
    is the parameter [url_after_scheme], which receives the lower-cased
    scheme and the input after the colon and yields the [pathname] of the
    parsed URL, or [None] when the parser fails. *)

Definition is_c0_or_space (c : ascii) : bool := (nat_of_ascii c <=? 32)%nat.

Definition is_tab_or_newline (c : ascii) : bool :=
  match nat_of_ascii c with
  | 9 | 10 | 13 => true
  | _ => false
  end.

Fixpoint strip_leading (s : string) : string :=
  match s with
  | EmptyString => EmptyString
  | String c s' => if is_c0_or_space c then strip_leading s' else s
  end.

Fixpoint strip_trailing (s : string) : string :=
  match s with
  | EmptyString => EmptyString
  | String c s' =>
      match strip_trailing s' with
      | EmptyString =>
          if is_c0_or_space c then EmptyString else String c EmptyString
      | r => String c r
      end
  end.

Fixpoint remove_tab_newline (s : string) : string :=
  match s with
  | EmptyString => EmptyString
  | String c s' =>
      if is_tab_or_newline c then remove_tab_newline s'
      else String c (remove_tab_newline s')
  end.

(** ASCII lower-casing, as the URL parser applies it to the scheme *)
Definition ascii_lower (c : ascii) : ascii :=
  if JS.is_upper c then ascii_of_nat (nat_of_ascii c + 32) else c.

Definition is_scheme_char (c : ascii) : bool :=
  JS.is_alpha c || JS.is_digit c ||
  Ascii.eqb c "+" || Ascii.eqb c "-" || Ascii.eqb c ".".

(** The scheme state: reads scheme characters up to a colon and returns the
    lower-cased characters read and the input after the colon.  Any other
    character, or the end of the input, leads to the no-scheme state, which
    fails when there is no base URL. *)
Fixpoint scheme_state (s : string) : option (string * string) :=
  match s with
  | EmptyString => None
  | String c s' =>
      if Ascii.eqb c ":" then Some (EmptyString, s')
      else if is_scheme_char c then
        '(buffer, rest) ← scheme_state s';
        Some (String (ascii_lower c) buffer, rest)
      else None
  end.

(** The scheme start state on the preprocessed input. *)
Definition split_scheme (input : string) : option (string * string) :=
  match remove_tab_newline (strip_trailing (strip_leading input)) with
  | String c s' =>
      if JS.is_alpha c then
        '(buffer, rest) ← scheme_state s';
        Some (String (ascii_lower c) buffer, rest)
      else None
  | EmptyString => None
  end.

Definition Invalid_URL : exn := TypeError "Invalid URL".

Section parse.

Variable url_after_scheme : string → string → option string.

(** [new URL(input).pathname] *)
Definition URL_pathname (input : string) : result string :=
  match split_scheme input ≫= (λ '(scheme, rest), url_after_scheme scheme rest) with
  | Some p => Ok p
  | None => Throw Invalid_URL
  end.

(** [[repo, ref] = repo.split('@')]: the first two elements of the split *)
Definition split_at (repo : string) : option string * option string :=
  let a := JS.split "@" repo in (a !! 0%nat, a !! 1%nat).

Definition parseSkillSpecifier (specifier : string) : result ParsedSource :=
  if JS.startsWith specifier "github:" then
    let rest := JS.slice 7 specifier in
    let ownerRepo := default EmptyString (head (JS.split "/" rest)) in
    let pathParts := tail (JS.split "/" rest) in
    let '(owner, repoWithRef) :=
      if JS.includes ownerRepo "/"
      then (default EmptyString (head (JS.split "/" ownerRepo)),
            Some (JS.join "/" (tail (JS.split "/" ownerRepo))))
      else (ownerRepo, pathParts !! 0%nat) in
    let repo := default EmptyString
                  (JS.or_else (JS.or_else repoWithRef (pathParts !! 0%nat))
                              (Some EmptyString)) in
    let '(repo, ref) :=
      if JS.includes repo "@"
      then (default EmptyString (split_at repo).1, (split_at repo).2)
      else (repo, None) in
    let skillPath := JS.join "/" (tail pathParts) in
    Ok {| type := github; owner := Some owner; repo := Some repo;
          ref := ref; skillPath := JS.or_undefined skillPath;
          url_ := None; localPath := None; registryId := None |}
  else if JS.includes specifier "github.com" then
    pathname ← URL_pathname specifier;
    let parts := JS.split "/" (JS.slice 1 pathname) in
    let owner := parts !! 0%nat in
    let repo := parts !! 1%nat in
    let repo :=
      match repo with
      | Some r => if JS.endsWith r ".git" then Some (JS.slice_0_neg 4 r) else Some r
      | None => None
      end in
    let ref :=
      if bool_decide (parts !! 2%nat = Some "tree") && JS.truthy_opt (parts !! 3%nat)
      then parts !! 3%nat else None in
    let skillPath := JS.join "/" (drop 4 parts) in
    Ok {| type := github; owner := owner; repo := repo;
          ref := ref; skillPath := JS.or_undefined skillPath;
          url_ := None; localPath := None; registryId := None |}
  else if JS.startsWith specifier "http://" || JS.startsWith specifier "https://" then
    Ok {| type := url; url_ := Some specifier;
          owner := None; repo := None; ref := None; skillPath := None;
          localPath := None; registryId := None |}
  else if JS.startsWith specifier "./" || JS.startsWith specifier "/"
          || JS.startsWith specifier "../" then
    Ok {| type := local; localPath := Some specifier;
          owner := None; repo := None; ref := None; skillPath := None;
          url_ := None; registryId := None |}
  else if JS.includes specifier "/" then
    let parts := JS.split "/" specifier in
    let owner := parts !! 0%nat in
    let repoWithRef := parts !! 1%nat in
    let '(repo, ref) :=
      match repoWithRef with
      | Some r => if JS.includes r "@" then split_at r else (Some r, None)
      | None => (None, None)
      end in
    Ok {| type := github; owner := owner; repo := repo; ref := ref;
          skillPath := None;
          url_ := None; localPath := None; registryId := None |}
  else if UUID_PATTERN_test specifier then
    Ok {| type := registry; registryId := Some specifier;
          owner := None; repo := None; ref := None; skillPath := None;
          url_ := None; localPath := None |}
  else
    Ok {| type := registry; registryId := Some specifier;
          owner := None; repo := None; ref := None; skillPath := None;
          url_ := None; localPath := None |}.

End parse.

(** A stand-in for the rest of the URL parser, used to run the resolver on
    concrete inputs: it skips an authority introduced by two slashes and
    takes the path up to the query or the fragment. *)
Fixpoint until_query (s : string) : string :=
  match s with
  | EmptyString => EmptyString
  | String c s' =>
      if Ascii.eqb c "?" || Ascii.eqb c "#" then EmptyString
      else String c (until_query s')
  end.

Fixpoint skip_authority (s : string) : string :=
  match s with
  | EmptyString => EmptyString
  | String c s' =>
      if Ascii.eqb c "/" || Ascii.eqb c "?" || Ascii.eqb c "#" then s
      else skip_authority s'
  end.

Definition simple_after_scheme (scheme rest : string) : option string :=
  if JS.startsWith rest "//" then
    match until_query (skip_authority (JS.slice 2 rest)) with
    | EmptyString => Some "/"
    | p => Some p
    end
  else Some (until_query rest).

(** *** Vocabulary of the statements about the resolver *)

Definition hosted_ref (o r : string) (rf sp : option string) :
    ParsedSource :=
  {| type := github;
     owner := Some o; repo := Some r;
     ref := rf; skillPath := sp;
     url_ := None; localPath := None;
     registryId := None |}.

Definition registry_ref (i : string) : ParsedSource :=
  {| type := registry; registryId := Some i;
     owner := None; repo := None;
     ref := None; skillPath := None;
     url_ := None; localPath := None |}.

(** The class of the code units of a string that [UUID_PATTERN] matches. *)
Definition hex_or_dash (c : ascii) : bool :=
  is_hex c || Ascii.eqb c "-".

(** the rules before the shorthand rule all miss [s] *)
Definition earlier_rules_miss (s : string) : bool :=
  negb (JS.startsWith s "github:")
  && negb (JS.includes s "github.com")
  && negb (JS.startsWith s "http://" || JS.startsWith s "https://")
  && negb (JS.startsWith s "./" || JS.startsWith s "/" || JS.startsWith s "../").

Definition url_ref (u : string) : ParsedSource :=
  {| type := url; url_ := Some u;
     owner := None; repo := None; ref := None; skillPath := None;
     localPath := None; registryId := None |}.

Definition local_ref (p : string) : ParsedSource :=
  {| type := local; localPath := Some p;
     owner := None; repo := None; ref := None; skillPath := None;
     url_ := None; registryId := None |}.


(** what a returned variant carries: the fields of its kind and no others *)
Definition well_formed (s : string) (p : ParsedSource) : Prop :=
  match type p with
  | github =>
      is_Some (owner p) ∧ url_ p = None ∧ localPath p = None
      ∧ registryId p = None
  | url => p = url_ref s
  | local => p = local_ref s
  | registry => p = registry_ref s
  end.


End Resolver.

(** ** The registry fetcher (commands/install.ts, core/api-client.ts) *)

Module Registry.

(** [WorkflowSearchResult], with the fields the fetcher reads *)
Record WorkflowSearchResult : Type := mkWorkflow {
  id : string;
  title : string;
  slug : string;
  description : string;
}.

(** [WorkflowListResponse] *)
Record WorkflowListResponse : Type := mkWorkflowListResponse {
  workflows : list WorkflowSearchResult;
  total : Z;
  page : Z;
  pages : Z;
}.

(** The registry client as the fetcher uses it: each method answers with a
    value or throws. [searchWorkflows] receives the query and the limit. *)
Record ApiClient : Type := mkApiClient {
  searchWorkflows : string → Z → result WorkflowListResponse;
  getWorkflow : string → result WorkflowSearchResult;
  downloadWorkflow : string → result string;
}.

(** What the fetcher does besides returning: calls of the client and lines
    of the logger, in order. *)
Inductive Event : Type :=
  | Search (query : string) (limit : Z)
  | Get (workflowId : string)
  | Download (workflowId : string)
  | Warn (message : string)
  | Dim (message : string).

(** A computation that logs events and returns or throws. *)
Definition F (A : Type) : Type := list Event * result A.

Definition pure {A : Type} (a : A) : F A := ([], Ok a).

Definition raise {A : Type} (e : exn) : F A := ([], Throw e).

Definition emit (ev : Event) : F unit := ([ev], Ok ()).

(** a call of the client, logged before its outcome is known *)
Definition call {A : Type} (ev : Event) (r : result A) : F A := ([ev], r).

Definition bindF {A B : Type} (m : F A) (k : A → F B) : F B :=
  match m with
  | (l, Ok a) => let '(l', r) := k a in (l ++ l', r)
  | (l, Throw e) => (l, Throw e)
  end.

Notation "'do' x '<-' m 'in' k" := (bindF m (λ x, k))
  (at level 10, x name, m at level 100, k at level 200, only parsing).

(** the rest of the line: the longest prefix without a line terminator *)
Fixpoint line_rest (s : string) : string :=
  match s with
  | EmptyString => EmptyString
  | String c s' =>
      if JS.is_line_terminator c then EmptyString else String c (line_rest s')
  end.

(** [\s*(.+)$] under the [m] flag at the head of [s]: the captured group.
    The star is greedy: it gives a white-space code unit back only when the
    group finds nothing after it. *)
Fixpoint capture (s : string) : option string :=
  match s with
  | EmptyString => None
  | String c s' =>
      if JS.is_white c then
        match capture s' with
        | Some g => Some g
        | None =>
            if JS.is_line_terminator c then None else Some (line_rest s)
        end
      else Some (line_rest s)
  end.

(** [content.match(/^name:\s*(.+)$/m)]: the group of the leftmost match;
    [bol] tells whether the head of [s] starts a line. *)
Fixpoint match_name (bol : bool) (s : string) : option string :=
  match
    (if bol && JS.startsWith s "name:" then capture (JS.slice 5 s) else None)
  with
  | Some g => Some g
  | None =>
      match s with
      | EmptyString => None
      | String c s' => match_name (JS.is_line_terminator c) s'
      end
  end.

(** the name taken from the front matter, or the fallback *)
Definition name_of (content fallback : string) : string :=
  match match_name true content with
  | Some g => JS.trim g
  | None => fallback
  end.

(** what [fetchFromRegistry] resolves to *)
Record Fetched : Type := mkFetched {
  name : string;
  content : string;
  workflowId : string;
}.

Definition no_skill_message (registryId : string) : string :=
  "No skill found matching " +:+ JS.dq +:+ registryId +:+ JS.dq
  +:+ " in the registry.".

Definition multiple_message (t : string) : string :=
  "Multiple skills found. Installing " +:+ JS.dq +:+ t +:+ JS.dq +:+ ".".

Definition use_id_message : string :=
  "Use the workflow ID for exact match: outclaw install <uuid>".

(** the test of [results.workflows.find] *)
Definition exact (registryId : string) (w : WorkflowSearchResult) : bool :=
  String.eqb (JS.toLowerCase (title w)) (JS.toLowerCase registryId)
  || String.eqb (slug w) registryId.

Definition fetchFromRegistry (client : ApiClient) (registryId : string) :
    F Fetched :=
  if Resolver.UUID_PATTERN_test registryId then
    do content <- call (Download registryId) (downloadWorkflow client registryId) in
    do workflow <- call (Get registryId) (getWorkflow client registryId) in
    pure {| name := name_of content (title workflow);
            content := content; workflowId := registryId |}
  else
    do results <- call (Search registryId 5) (searchWorkflows client registryId 5) in
    match workflows results with
    | [] => raise (Error (no_skill_message registryId))
    | first :: _ =>
        let exactMatch := List.find (exact registryId) (workflows results) in
        let workflow := default first exactMatch in
        do _ <- (if negb (bool_decide (is_Some exactMatch))
                    && (1 <? length (workflows results))%nat
                 then do _ <- emit (Warn (multiple_message (title workflow))) in
                      emit (Dim use_id_message)
                 else pure ()) in
        do content <- call (Download (id workflow))
                           (downloadWorkflow client (id workflow)) in
        pure {| name := name_of content (title workflow);
                content := content; workflowId := id workflow |}
    end.

(** *** Vocabulary of the statements about the fetcher, and a sample client *)

(** the outcome of downloading the selected result *)
Definition downloaded (client : ApiClient) (w : WorkflowSearchResult) :
    result Fetched :=
  match downloadWorkflow client (id w) with
  | Ok c => Ok {| name := name_of c (title w);
                  content := c; workflowId := id w |}
  | Throw e => Throw e
  end.

Definition is_Search (ev : Event) : bool :=
  match ev with
  | Search _ _ => true
  | _ => false
  end.

Definition demo_results : list WorkflowSearchResult :=
  [ mkWorkflow "1" "Bar" "bar" "first"; mkWorkflow "2" "Baz" "foo" "second" ].

Definition demo_client : ApiClient :=
  {| searchWorkflows := λ _ _,
       Ok {| workflows := demo_results; total := 2; page := 1; pages := 1 |};
     getWorkflow := λ _, Throw (ApiError "Not found" 404);
     downloadWorkflow := λ i, Ok ("name: skill-" +:+ i) |}.

End Registry.

(** ** The hosted-file fetcher (commands/install.ts) *)

Module GitHub.

(** the part of a [Response] the fetcher reads *)
Record Response : Type := mkResponse {
  ok : bool;
  status : Z;
  statusText : string;
  text : string;
}.

(** a possibly undefined string inside a template literal *)
Definition interpolate (v : option string) : string := default "undefined" v.

(** the address of the primary document: [ref] defaults to [main] and
    [skillPath] to the empty string when they are undefined *)
Definition skillMdUrl (source : Resolver.ParsedSource) : string :=
  let ref := default "main" (Resolver.ref source) in
  let skillPath := default EmptyString (Resolver.skillPath source) in
  let basePath := if JS.truthy skillPath then skillPath +:+ "/" else EmptyString in
  "https://raw.githubusercontent.com/" +:+ interpolate (Resolver.owner source)
  +:+ "/" +:+ interpolate (Resolver.repo source) +:+ "/" +:+ ref +:+ "/"
  +:+ basePath +:+ "SKILL.md".

(** what [fetchFromGitHub] resolves to; the name is the repo of the source
    when the document gives none, and the repo may be undefined *)
Record Fetched : Type := mkFetched {
  name : option string;
  content : string;
}.

(** [fetchFromGitHub(source)]; [fetch] is the platform's, answering with a
    response or throwing *)
Definition fetchFromGitHub (fetch : string → result Response)
    (source : Resolver.ParsedSource) : result Fetched :=
  response ← fetch (skillMdUrl source);
  if negb (ok response) then
    if (status response =? 404)%Z
    then Throw (Error ("SKILL.md not found at " +:+ skillMdUrl source))
    else Throw (Error ("Failed to fetch skill: " +:+ statusText response))
  else
    let content := text response in
    Ok {| name := match Registry.match_name true content with
                  | Some g => Some (JS.trim g)
                  | None => Resolver.repo source
                  end;
          content := content |}.

End GitHub.

(** ** Skill documents (schemas/skill.schema.ts, parsers/skill-parser.ts) *)

Module Parser.

(** The values a front-matter block parses to. *)
#[local] Unset Elimination Schemes.
Inductive JSValue : Type :=
  | JNull
  | JBoolean (b : bool)
  | JNumber (printed : string)
  | JString (s : string)
  | JArray (items : list JSValue)
  | JObject (fields : list (string * JSValue)).
#[local] Set Elimination Schemes.

(** [obj[key]]: [None] stands for [undefined] *)
Fixpoint get (key : string) (fields : list (string * JSValue)) : option JSValue :=
  match fields with
  | [] => None
  | (k, v) :: rest => if String.eqb k key then Some v else get key rest
  end.

Inductive Context : Type := normal | fork.

Inductive Author : Type :=
  | AuthorString (s : string)
  | AuthorObject (name : string) (email url : option string).

(** [SkillFrontmatter]: the output type of [SkillFrontmatterSchema] *)
Record SkillFrontmatter : Type := mkSkillFrontmatter {
  name : string;
  description : string;
  version : option string;
  disable_model_invocation : bool;
  user_invocable : bool;
  allowed_tools : option (list string);
  argument_hint : option string;
  model : option string;
  context : option Context;
  agent : option string;
  license : option string;
  author : option Author;
  keywords : option (list string);
  repository : option string;
}.

(** [Skill]: the front matter with [content] and [path] *)
Record Skill : Type := mkSkill {
  frontmatter : SkillFrontmatter;
  content : string;
  path : string;
}.

(** *** The schema combinators, as the schema uses them *)

Definition invalid_type (path : string) {A : Type} : result A :=
  Throw (ZodError path "invalid_type").

(** [z.string()] *)
Definition z_string (path : string) (v : option JSValue) : result string :=
  match v with
  | None => Throw (ZodError path "Required")
  | Some (JString s) => Ok s
  | Some _ => invalid_type path
  end.

(** [z.string().optional()] *)
Definition z_string_optional (path : string) (v : option JSValue) :
    result (option string) :=
  match v with
  | None => Ok None
  | Some (JString s) => Ok (Some s)
  | Some _ => invalid_type path
  end.

(** [z.boolean().optional().default(d)] *)
Definition z_boolean_default (path : string) (d : bool) (v : option JSValue) :
    result bool :=
  match v with
  | None => Ok d
  | Some (JBoolean b) => Ok b
  | Some _ => invalid_type path
  end.

(** the items of an array when all of them are strings *)
Fixpoint strings_of (items : list JSValue) : option (list string) :=
  match items with
  | [] => Some []
  | JString s :: rest => l ← strings_of rest; Some (s :: l)
  | _ :: _ => None
  end.

(** the index of the first item that is no string *)
Fixpoint first_non_string (items : list JSValue) : nat :=
  match items with
  | JString _ :: rest => S (first_non_string rest)
  | _ => 0
  end.

(** [z.array(z.string()).optional()]: an item that is no string is reported
    under the path of the array followed by its index, the segments of a
    path being joined by dots here *)
Definition z_string_array_optional (path : string) (v : option JSValue) :
    result (option (list string)) :=
  match v with
  | None => Ok None
  | Some (JArray items) =>
      match strings_of items with
      | Some l => Ok (Some l)
      | None => invalid_type (path +:+ "." +:+ pretty (first_non_string items))
      end
  | Some _ => invalid_type path
  end.

Definition is_name_char (c : ascii) : bool :=
  JS.is_lower c || JS.is_digit c || Ascii.eqb c "-".

(** [\d+] at the head of [s]: the rest after the longest run of digits *)
Fixpoint digits (s : string) : string :=
  match s with
  | EmptyString => EmptyString
  | String c s' => if JS.is_digit c then digits s' else s
  end.

Definition digits1 (s : string) : option string :=
  match s with
  | String c s' => if JS.is_digit c then Some (digits s') else None
  | EmptyString => None
  end.

Definition dot (s : string) : option string :=
  match s with
  | String c s' => if Ascii.eqb c "." then Some s' else None
  | EmptyString => None
  end.

(** the pattern of a version: digits, dot, digits, dot, digits *)
Definition is_semver (s : string) : bool :=
  match
    s1 ← digits1 s; s2 ← dot s1; s3 ← digits1 s2; s4 ← dot s3; digits1 s4
  with
  | Some EmptyString => true
  | _ => false
  end.

Section schema.

(** The format checks of the schema library for [.email()] and [.url()]. *)
Variable is_email : string → bool.
Variable is_url : string → bool.

Definition parse_name (v : option JSValue) : result string :=
  s ← z_string "name" v;
  if (JS.length s <? 1)%nat then Throw (ZodError "name" "Name is required")
  else if negb (JS.all_chars is_name_char s)
  then Throw (ZodError "name" "Name must be lowercase alphanumeric with hyphens")
  else Ok s.

Definition parse_description (v : option JSValue) : result string :=
  s ← z_string "description" v;
  if (JS.length s <? 10)%nat
  then Throw (ZodError "description"
                "Description should be detailed for good triggering")
  else Ok s.

Definition parse_version (v : option JSValue) : result (option string) :=
  o ← z_string_optional "version" v;
  match o with
  | Some s =>
      if is_semver s then Ok (Some s)
      else Throw (ZodError "version" "Version must be semver format")
  | None => Ok None
  end.

(** the union of a string and an array of strings, with the transform that
    splits a string at the commas and trims the parts *)
Definition parse_allowed_tools (v : option JSValue) :
    result (option (list string)) :=
  match v with
  | None => Ok None
  | Some (JString s) => Ok (Some (JS.trim <$> JS.split "," s))
  | Some (JArray items) =>
      match strings_of items with
      | Some l => Ok (Some l)
      | None => Throw (ZodError "allowed-tools" "invalid_union")
      end
  | Some _ => Throw (ZodError "allowed-tools" "invalid_union")
  end.

Definition parse_context (v : option JSValue) : result (option Context) :=
  match v with
  | None => Ok None
  | Some (JString s) =>
      if String.eqb s "normal" then Ok (Some normal)
      else if String.eqb s "fork" then Ok (Some fork)
      else Throw (ZodError "context" "invalid_enum_value")
  | Some _ => invalid_type "context"
  end.

(** the object option of [author]: [Throw] when the option stops at a value
    of the wrong type; otherwise the object, with the first issue of the
    format checks when one of them fails *)
Definition parse_author_object (fields : list (string * JSValue)) :
    result (Author * option exn) :=
  n ← z_string "author.name" (get "name" fields);
  e ← z_string_optional "author.email" (get "email" fields);
  u ← z_string_optional "author.url" (get "url" fields);
  Ok (AuthorObject n e u,
      if negb (from_option is_email true e)
      then Some (ZodError "author.email" "invalid_string")
      else if negb (from_option is_url true u)
      then Some (ZodError "author.url" "invalid_string")
      else None).

(** the union of a string and an object.  The union reports
    [invalid_union] under [author] when both options stop at a value of the
    wrong type; when the object option has the right types and fails a
    format check, the union reports the issue of that check under its own
    path. *)
Definition parse_author (v : option JSValue) : result (option Author) :=
  match v with
  | None => Ok None
  | Some (JString s) => Ok (Some (AuthorString s))
  | Some (JObject fields) =>
      match parse_author_object fields with
      | Ok (a, None) => Ok (Some a)
      | Ok (_, Some issue) => Throw issue
      | Throw _ => Throw (ZodError "author" "invalid_union")
      end
  | Some _ => Throw (ZodError "author" "invalid_union")
  end.

(** [SkillFrontmatterSchema.parse(data)]: the keys are checked in the order
    of the schema, keys the schema does not know are dropped, and the error
    carries the first issue. *)
Definition SkillFrontmatterSchema_parse (data : JSValue) :
    result SkillFrontmatter :=
  match data with
  | JObject fields =>
      name ← parse_name (get "name" fields);
      description ← parse_description (get "description" fields);
      version ← parse_version (get "version" fields);
      dmi ← z_boolean_default "disable-model-invocation" false
               (get "disable-model-invocation" fields);
      ui ← z_boolean_default "user-invocable" true (get "user-invocable" fields);
      tools ← parse_allowed_tools (get "allowed-tools" fields);
      hint ← z_string_optional "argument-hint" (get "argument-hint" fields);
      model ← z_string_optional "model" (get "model" fields);
      context ← parse_context (get "context" fields);
      agent ← z_string_optional "agent" (get "agent" fields);
      license ← z_string_optional "license" (get "license" fields);
      author ← parse_author (get "author" fields);
      keywords ← z_string_array_optional "keywords" (get "keywords" fields);
      repository ← z_string_optional "repository" (get "repository" fields);
      Ok {| name := name; description := description; version := version;
            disable_model_invocation := dmi; user_invocable := ui;
            allowed_tools := tools; argument_hint := hint; model := model;
            context := context; agent := agent; license := license;
            author := author; keywords := keywords; repository := repository |}
  | _ => invalid_type EmptyString
  end.

(** The front-matter library: [matter(content)] splits a document into the
    parsed header block [data] and the text after it, or throws on a block
    it cannot read. *)
Variable matter : string → result (JSValue * string).

(** [new SkillParser(basePath).parse()] on the text of [SKILL.md] *)
Definition parse (basePath fileContent : string) : result Skill :=
  '(data, body) ← matter fileContent;
  frontmatter ← SkillFrontmatterSchema_parse data;
  Ok {| frontmatter := frontmatter; content := JS.trim body; path := basePath |}.

End schema.

(** [Partial<SkillFrontmatter>]: every field may be undefined *)
Record PartialFrontmatter : Type := mkPartialFrontmatter {
  p_name : option string;
  p_description : option string;
  p_version : option string;
  p_disable_model_invocation : option bool;
  p_user_invocable : option bool;
  p_allowed_tools : option (list string);
  p_argument_hint : option string;
  p_model : option string;
  p_context : option Context;
  p_agent : option string;
  p_license : option string;
  p_author : option Author;
  p_keywords : option (list string);
  p_repository : option string;
}.

(** a parsed front matter passed where a partial one is expected *)
Definition partial (f : SkillFrontmatter) : PartialFrontmatter :=
  {| p_name := Some (name f); p_description := Some (description f);
     p_version := version f;
     p_disable_model_invocation := Some (disable_model_invocation f);
     p_user_invocable := Some (user_invocable f);
     p_allowed_tools := allowed_tools f; p_argument_hint := argument_hint f;
     p_model := model f; p_context := context f; p_agent := agent f;
     p_license := license f; p_author := author f;
     p_keywords := keywords f; p_repository := repository f |}.

Definition string_of_bool (b : bool) : string :=
  if b then "true" else "false".

Definition string_of_context (c : Context) : string :=
  match c with
  | normal => "normal"
  | fork => "fork"
  end.

(** one [if (value) yamlLines.push(key: value)] for a string field *)
Definition line_if_truthy (key : string) (v : option string) : list string :=
  match v with
  | Some s => if JS.truthy s then [key +:+ ": " +:+ s] else []
  | None => []
  end.

Definition yamlLines (f : PartialFrontmatter) : list string :=
  line_if_truthy "name" (p_name f)
  ++ line_if_truthy "description" (p_description f)
  ++ line_if_truthy "version" (p_version f)
  ++ match p_disable_model_invocation f with
     | Some b => ["disable-model-invocation: " +:+ string_of_bool b]
     | None => []
     end
  ++ match p_user_invocable f with
     | Some b => ["user-invocable: " +:+ string_of_bool b]
     | None => []
     end
  ++ match p_allowed_tools f with
     | Some (t :: ts) => ["allowed-tools: " +:+ JS.join ", " (t :: ts)]
     | _ => []
     end
  ++ line_if_truthy "argument-hint" (p_argument_hint f)
  ++ line_if_truthy "model" (p_model f)
  ++ match p_context f with
     | Some c => ["context: " +:+ string_of_context c]
     | None => []
     end
  ++ line_if_truthy "agent" (p_agent f).

(** [generateSkillMd(frontmatter, body)] *)
Definition generateSkillMd (f : PartialFrontmatter) (body : string) : string :=
  "---" +:+ JS.nl +:+ JS.join JS.nl (yamlLines f) +:+ JS.nl
  +:+ "---" +:+ JS.nl +:+ JS.nl +:+ body +:+ JS.nl.

(** *** Vocabulary of the statements about documents, and sample documents *)

Definition with_metadata (f : SkillFrontmatter) (l : option string)
    (a : option Author) (k : option (list string)) (r : option string) :
    SkillFrontmatter :=
  {| name := name f; description := description f;
     version := version f;
     disable_model_invocation := disable_model_invocation f;
     user_invocable := user_invocable f; allowed_tools := allowed_tools f;
     argument_hint := argument_hint f; model := model f;
     context := context f; agent := agent f;
     license := l; author := a; keywords := k; repository := r |}.

Definition demo_data : JSValue :=
  JObject [ ("name", JString "demo");
            ("description", JString "A demonstration skill");
            ("license", JString "MIT");
            ("author", JString "Ada");
            ("keywords", JArray [JString "demo"]);
            ("repository", JString "https://example.org/demo") ].

Definition demo_header : SkillFrontmatter :=
  {| name := "demo"; description := "A demonstration skill";
     version := None;
     disable_model_invocation := false; user_invocable := true;
     allowed_tools := None; argument_hint := None; model := None;
     context := None; agent := None;
     license := Some "MIT"; author := Some (AuthorString "Ada");
     keywords := Some ["demo"];
     repository := Some "https://example.org/demo" |}.

Definition demo_generated : string :=
  "---" +:+ JS.nl +:+ "name: demo" +:+ JS.nl
  +:+ "description: A demonstration skill" +:+ JS.nl
  +:+ "disable-model-invocation: false" +:+ JS.nl
  +:+ "user-invocable: true" +:+ JS.nl
  +:+ "---" +:+ JS.nl +:+ JS.nl +:+ "Body" +:+ JS.nl.

Definition demo_doc : string :=
  "---" +:+ JS.nl +:+ "name: demo" +:+ JS.nl
  +:+ "description: A demonstration skill" +:+ JS.nl
  +:+ "---" +:+ JS.nl.

Definition bare_data : JSValue :=
  JObject [ ("name", JString "demo");
            ("description", JString "A demonstration skill") ].

Definition bare_header : SkillFrontmatter :=
  with_metadata demo_header None None None None.

(** A stand-in for the front-matter library that knows one document: the
    header block of [demo_doc] and the empty text after its closing
    delimiter. *)
Definition demo_matter (doc : string) : result (JSValue * string) :=
  if String.eqb doc demo_doc then Ok (bare_data, EmptyString)
  else Throw YAMLException.

(** the keys the schema knows *)
Definition known_keys : list string :=
  [ "name"; "description"; "version"; "disable-model-invocation";
    "user-invocable"; "allowed-tools"; "argument-hint"; "model"; "context";
    "agent"; "license"; "author"; "keywords"; "repository" ].

End Parser.

(** ** The local registry (core/skill-manager.ts, schemas/manifest.schema.ts) *)

Module Manager.

Inductive Scope : Type := global | project.

Global Instance Scope_eq_dec : EqDecision Scope.
Proof. solve_decision. Defined.

Inductive SourceType : Type := registry | github | git | local | url.

(** [SkillSource = {type, url?, ref?, id?}] *)
Record SkillSource : Type := mkSkillSource {
  type : SourceType;
  url_ : option string;
  ref : option string;
  id : option string;
}.

(** [SkillManifest]: one entry of the lock file *)
Record SkillManifest : Type := mkSkillManifest {
  name : string;
  version : string;
  installedAt : string;
  source : SkillSource;
  scope : Scope;
}.

(** [OutclawManifest = {version: 1, skills: SkillManifest[]}] *)
Record OutclawManifest : Type := mkOutclawManifest {
  manifest_version : Z;
  skills : list SkillManifest;
}.

(** *** The part of the file system a manager works on

    A skill directory is the finite map from the names of the files below it
    to their contents; the skills root maps a skill name to its directory.
    The lock file is absent, holds text that [JSON.parse] rejects, or holds
    the JSON text of a manifest (the source casts the parsed value to
    [OutclawManifest]; [JSON.parse] gives back what [JSON.stringify] was
    given). *)

Inductive LockFile : Type :=
  | Absent
  | Unparsable (raw : string)
  | Json (m : OutclawManifest).

Record Disk : Type := mkDisk {
  skillsDir : gmap string (gmap string string);
  lockFile : LockFile;
}.

(** The manager object: its scope and the skills root resolved for it. *)
Record SkillManager : Type := mkSkillManager {
  this_scope : Scope;
  basePath : string;
}.

(** Effectful code: the disk is threaded through, and a thrown exception
    keeps the disk as the code left it. *)
Definition M (A : Type) : Type := Disk → result A * Disk.

Definition ret {A : Type} (a : A) : M A := λ d, (Ok a, d).

Definition throw {A : Type} (e : exn) : M A := λ d, (Throw e, d).

Definition bindM {A B : Type} (m : M A) (k : A → M B) : M B := λ d,
  match m d with
  | (Ok a, d') => k a d'
  | (Throw e, d') => (Throw e, d')
  end.

(** [try { m } catch { h }] *)
Definition try_catch {A : Type} (m : M A) (h : M A) : M A := λ d,
  match m d with
  | (Ok a, d') => (Ok a, d')
  | (Throw _, d') => h d'
  end.

Notation "'let*' x ':=' m 'in' k" := (bindM m (λ x, k))
  (at level 10, x name, m at level 100, k at level 200, only parsing).
Notation "m ';;' k" := (bindM m (λ _, k))
  (at level 100, k at level 200, right associativity, only parsing).

Definition already_exists_message (n : string) : string :=
  "Skill " +:+ JS.dq +:+ n +:+ JS.dq +:+ " already exists. Use --force to overwrite.".

Definition not_found_message (n : string) : string :=
  "Skill " +:+ JS.dq +:+ n +:+ JS.dq +:+ " not found".

(** The two error kinds of the registry, as the errors the code throws. *)
Definition Conflict (n : string) : exn := Error (already_exists_message n).
Definition NotFound (n : string) : exn := Error (not_found_message n).

(** [path.join(a, b)] for a plain segment [b] *)
Definition path_join (a b : string) : string := a +:+ "/" +:+ b.

(** A name that [path.join(root, n)] makes a direct child of the root: it is
    not empty, is neither [.] nor [..], and holds no slash, no backslash and
    no NUL.  The skills root maps such names to their directories, and the
    primitives below are those of the file system for such names; for
    another name the joined path is the root itself, a directory under
    another name, a nested path or a path outside the root, none of which is
    an entry of the map.  Names are compared as a case-sensitive file system
    compares them. *)
Definition plain_segment (n : string) : bool :=
  JS.truthy n
  && negb (String.eqb n ".") && negb (String.eqb n "..")
  && negb (JS.includes n "/")
  && negb (JS.includes n (String "092" EmptyString))
  && negb (JS.includes n (String "000" EmptyString)).


(** [getSkillPathAsync(name, this.scope)] *)
Definition getSkillPath (this : SkillManager) (n : string) : string :=
  path_join (basePath this) n.

(** *** File system primitives on the modelled paths *)

(** [pathExists(skillPath)], for a plain segment [n] *)
Definition pathExists_skill (n : string) : M bool := λ d,
  (Ok (bool_decide (is_Some (skillsDir d !! n))), d).

(** [pathExists(path.join(skillPath, 'SKILL.md'))], for a plain segment [n] *)
Definition pathExists_skillMd (n : string) : M bool := λ d,
  (Ok (bool_decide (is_Some (skillsDir d !! n ≫= (.!! "SKILL.md")))), d).

(** [ensureDir(skillPath)], for a plain segment [n]: [fs.mkdir] with
    [recursive: true] keeps an existing directory as it is. *)
Definition ensureDir_skill (n : string) : M unit := λ d,
  match skillsDir d !! n with
  | Some _ => (Ok (), d)
  | None => (Ok (), mkDisk (<[n := ∅]> (skillsDir d)) (lockFile d))
  end.

(** [fs.writeFile(path.join(skillPath, 'SKILL.md'), content)], for a plain
    segment [n]: fails when the directory is missing. *)
Definition writeFile_skillMd (n content : string) : M unit := λ d,
  match skillsDir d !! n with
  | Some dir =>
      (Ok (), mkDisk (<[n := <["SKILL.md" := content]> dir]> (skillsDir d)) (lockFile d))
  | None => (Throw (Error "ENOENT"), d)
  end.

(** [fs.rm(skillPath, {recursive: true, force: true})], for a plain
    segment [n] *)
Definition rm_skill (n : string) : M unit := λ d,
  (Ok (), mkDisk (delete n (skillsDir d)) (lockFile d)).

(** [JSON.parse(await fs.readFile(manifestPath, 'utf-8'))] *)
Definition read_lockFile : M OutclawManifest := λ d,
  match lockFile d with
  | Absent => (Throw (Error "ENOENT"), d)
  | Unparsable _ => (Throw (Error "SyntaxError"), d)
  | Json m => (Ok m, d)
  end.

(** [fs.writeFile(manifestPath, JSON.stringify(manifest, null, 2))] *)
Definition write_lockFile (m : OutclawManifest) : M unit := λ d,
  (Ok (), mkDisk (skillsDir d) (Json m)).

(** [a.findIndex(p)]: the first index whose element satisfies [p], or -1 *)
Fixpoint findIndex {A : Type} (p : A → bool) (a : list A) : Z :=
  match a with
  | [] => -1
  | x :: t =>
      if p x then 0
      else let i := findIndex p t in if (i <? 0)%Z then -1 else (i + 1)%Z
  end.

(** *** [class SkillManager]

    A manager addresses the skills root and the lock file of its scope: the
    disk a method runs on is the disk of [this.scope] (of [options.scope]
    for [createSkill]), and the names it is given are plain segments. *)

Definition skillExists (this : SkillManager) (n : string) : M bool :=
  pathExists_skillMd n.

Definition empty_manifest : OutclawManifest :=
  {| manifest_version := 1; skills := [] |}.

Definition getManifest (this : SkillManager) : M OutclawManifest :=
  try_catch read_lockFile (ret empty_manifest).

(** [updateManifest]; [now] is the value of [new Date().toISOString()]. *)
Definition updateManifest (this : SkillManager) (now : string)
    (n : string) (src : SkillSource) : M unit :=
  let* manifest := getManifest this in
  let entry :=
    {| name := n; version := "1.0.0"; installedAt := now;
       source := src; scope := this_scope this |} in
  let index := findIndex (λ s, String.eqb (name s) n) (skills manifest) in
  let skills' :=
    if (0 <=? index)%Z then <[Z.to_nat index := entry]> (skills manifest)
    else skills manifest ++ [entry] in
  write_lockFile {| manifest_version := manifest_version manifest;
                    skills := skills' |}.

Definition removeFromManifest (this : SkillManager) (n : string) : M unit :=
  try_catch
    (let* manifest := read_lockFile in
     write_lockFile
       {| manifest_version := manifest_version manifest;
          skills := filter (λ s, name s ≠ n) (skills manifest) |})
    (ret ()).

(** [InstallOptions] *)
Record InstallOptions : Type := mkInstallOptions {
  force : bool;
  opt_source : SkillSource;
}.

Definition installSkill (this : SkillManager) (now : string)
    (n skillMdContent : string) (options : InstallOptions) : M string :=
  let skillPath := getSkillPath this n in
  let* exists_ := pathExists_skill n in
  if negb (force options) && exists_ then throw (Conflict n)
  else
    ensureDir_skill n ;;
    writeFile_skillMd n skillMdContent ;;
    updateManifest this now n (opt_source options) ;;
    ret skillPath.

Definition uninstallSkill (this : SkillManager) (n : string) : M unit :=
  let skillPath := getSkillPath this n in
  let* exists_ := pathExists_skill n in
  if negb exists_ then throw (NotFound n)
  else
    rm_skill n ;;
    removeFromManifest this n.

(** *** Sequences of operations *)

Inductive Op : Type :=
  | Install (now n content : string) (options : InstallOptions)
  | Uninstall (n : string).

(** One operation by one manager; a thrown exception ends the operation and
    the next one starts from the disk as it was left.  The managers of a
    sequence share the disk, as the managers of one scope do. *)
Definition step (d : Disk) (c : SkillManager * Op) : Disk :=
  match c with
  | (this, Install now n content options) =>
      (installSkill this now n content options d).2
  | (this, Uninstall n) => (uninstallSkill this n d).2
  end.

Definition run (ops : list (SkillManager * Op)) (d : Disk) : Disk :=
  foldl step d ops.

(** [manifest()]: what [getManifest] returns on a disk *)
Definition manifest_of (d : Disk) : OutclawManifest :=
  match lockFile d with
  | Json m => m
  | _ => empty_manifest
  end.

(** The manifest invariant: at most one entry per (name, scope) pair. *)
Definition one_entry_per_name_scope (m : OutclawManifest) : Prop :=
  NoDup ((λ s, (name s, scope s)) <$> skills m).

(** At most one entry per name. *)
Definition one_entry_per_name (m : OutclawManifest) : Prop :=
  NoDup (name <$> skills m).

(** the number of entries of [m] named [n] *)
Definition count_name (n : string) (m : OutclawManifest) : nat :=
  length (filter (λ s, name s = n) (skills m)).

(** *** Creating and reading skills *)







(** [SkillInfo]: a skill with the scope it was read from *)
Record SkillInfo : Type := mkSkillInfo {
  skill : Parser.Skill;
  info_scope : Scope;
}.

Section reading.

Variable is_email : string → bool.
Variable is_url : string → bool.
Variable matter : string → result (Parser.JSValue * string).

(** [new SkillParser(skillPath).parse()] on the disk: reading a missing
    file throws *)
Definition parse_at (skillPath : string) (dir : option (gmap string string)) :
    result Parser.Skill :=
  match dir ≫= (.!! "SKILL.md") with
  | Some fileContent => Parser.parse is_email is_url matter skillPath fileContent
  | None => Throw (Error "ENOENT")
  end.

(** [getSkill(name)], for a plain segment [name]: [None] stands for
    [null] *)
Definition getSkill (this : SkillManager) (n : string) (d : Disk) :
    option SkillInfo :=
  match parse_at (getSkillPath this n) (skillsDir d !! n) with
  | Ok s => Some {| skill := s; info_scope := this_scope this |}
  | Throw _ => None
  end.


(** the skill information that [text], stored as the [SKILL.md] of [n],
    reads as; [None] when the text is no valid document *)
Definition read_as (this : SkillManager) (n text : string) : option SkillInfo :=
  match Parser.parse is_email is_url matter (getSkillPath this n) text with
  | Ok s => Some {| skill := s; info_scope := this_scope this |}
  | Throw _ => None
  end.

End reading.

(** *** Vocabulary of the statements about the manager, and sample disks *)

(** The entry that [updateManifest] writes. *)
Definition new_entry (this : SkillManager) (now n : string) (src : SkillSource) :
    SkillManifest :=
  {| name := n; version := "1.0.0"; installedAt := now;
     source := src; scope := this_scope this |}.

(** The skills of the manifest after an upsert of [n]. *)
Definition upserted (this : SkillManager) (now n : string) (src : SkillSource)
    (m : OutclawManifest) : list SkillManifest :=
  let index := findIndex (λ s, String.eqb (name s) n) (skills m) in
  if (0 <=? index)%Z then <[Z.to_nat index := new_entry this now n src]> (skills m)
  else skills m ++ [new_entry this now n src].

Definition demo_source : SkillSource :=
  {| type := registry; url_ := None; ref := None; id := Some "abc" |}.

Definition demo_manager : SkillManager :=
  {| this_scope := project; basePath := "skills" |}.

Definition demo_ops : list (SkillManager * Op) :=
  [ (demo_manager, Install "t0" "demo" "one" (mkInstallOptions false demo_source));
    (demo_manager, Install "t1" "demo" "two" (mkInstallOptions true demo_source));
    (mkSkillManager global "g", Install "t2" "other" "x" (mkInstallOptions false demo_source));
    (demo_manager, Uninstall "other") ].

Definition demo_dir : gmap string string :=
  {[ "SKILL.md" := "old text"; "references/guide.md" := "a guide" ]}.

Definition demo_entry : SkillManifest :=
  {| name := "demo"; version := "1.0.0"; installedAt := "t0";
     source := demo_source; scope := project |}.

Definition demo_disk : Disk :=
  {| skillsDir := {[ "demo" := demo_dir ]};
     lockFile := Json {| manifest_version := 1; skills := [demo_entry] |} |}.

(** A disk where the directory of a skill exists without its [SKILL.md]. *)
Definition half_written_disk : Disk :=
  {| skillsDir := {[ "demo" := ∅ ]}; lockFile := Absent |}.



(** a disk without skills and without a lock file *)
Definition empty_disk : Disk := {| skillsDir := ∅; lockFile := Absent |}.

(** what [Parser.demo_doc] reads as under the name [demo] *)
Definition demo_info : SkillInfo :=
  {| skill := {| Parser.frontmatter := Parser.bare_header;
                 Parser.content := EmptyString;
                 Parser.path := "skills/demo" |};
     info_scope := project |}.

End Manager.

(** ** Where a scope lives (utils/paths.ts) *)

Module Paths.

(** [OpenclawConfig], the part of [openclaw.json] that is read, with the
    field types the interface declares *)
Record AgentEntry : Type := mkAgentEntry {
  id : option string;
  default_ : option bool;
  workspace : option string;
}.

Record Defaults : Type := mkDefaults {
  defaults_workspace : option string;
}.

Record Agents : Type := mkAgents {
  defaults : option Defaults;
  list_ : option (list AgentEntry);
}.

Record Agent : Type := mkAgent {
  agent_workspace : option string;
}.

Record OpenclawConfig : Type := mkOpenclawConfig {
  agents : option Agents;
  agent : option Agent;
}.

(** what [fs.readFile] and [JSON.parse] give for a path: an exception (the
    file is missing or is no JSON), a value that is falsy or no object, or
    an object *)
Inductive FileState : Type :=
  | Unreadable
  | NotAnObject
  | Object (c : OpenclawConfig).

(** the environment variables that are read *)
Record Env : Type := mkEnv {
  OPENCLAW_CONFIG_PATH : option string;
  OPENCLAW_STATE_DIR : option string;
}.

(** [openclawConfigCache]: [None] is [undefined], [Some None] is [null] *)
Definition Cache : Type := option (option OpenclawConfig).

Section platform.

(** [os.homedir()], [process.cwd()], [path.resolve(p)] and
    [path.join(...parts)] *)
Variable homedir : string.
Variable cwd : string.
Variable path_resolve : string → string.
Variable path_join : list string → string.

(** [trimmed.replace(/^~(?=$|[\\/])/, os.homedir())], for a home directory
    that holds no replacement pattern *)
Definition replace_tilde (trimmed : string) : string :=
  match trimmed with
  | String "~" EmptyString => homedir
  | String "~" (String c rest) =>
      if Ascii.eqb c "/" || Ascii.eqb c "092"
      then homedir +:+ String c rest
      else trimmed
  | _ => trimmed
  end.

Definition resolveUserPath (input : string) : string :=
  let trimmed := JS.trim input in
  if negb (JS.truthy trimmed) then EmptyString
  else if JS.startsWith trimmed "~" then path_resolve (replace_tilde trimmed)
  else path_resolve trimmed.

(** [process.env.X?.trim()] when it is truthy *)
Definition env_trimmed (v : option string) : option string :=
  match v with
  | Some s => if JS.truthy (JS.trim s) then Some (JS.trim s) else None
  | None => None
  end.

Definition getOpenclawConfigPath (env : Env) : string :=
  match env_trimmed (OPENCLAW_CONFIG_PATH env) with
  | Some override => resolveUserPath override
  | None =>
      match env_trimmed (OPENCLAW_STATE_DIR env) with
      | Some stateDir => path_join [resolveUserPath stateDir; "openclaw.json"]
      | None => path_join [homedir; ".openclaw"; "openclaw.json"]
      end
  end.

(** [readOpenclawConfig()]: the first call reads the file and fills the
    cache; later calls answer from the cache.  [files] is the file system at
    the time of the call. *)
Definition readOpenclawConfig (env : Env) (files : string → FileState)
    (cache : Cache) : option OpenclawConfig * Cache :=
  match cache with
  | Some cached => (cached, cache)
  | None =>
      match files (getOpenclawConfigPath env) with
      | Object c => (Some c, Some (Some c))
      | _ => (None, Some None)
      end
  end.

(** [listedAgents.find((entry) => entry.default) ??
     listedAgents.find((entry) => entry.id === 'main')] *)
Definition defaultAgent (listedAgents : list AgentEntry) : option AgentEntry :=
  match List.find (λ entry, bool_decide (default_ entry = Some true))
                  listedAgents with
  | Some entry => Some entry
  | None =>
      List.find (λ entry, bool_decide (id entry = Some "main")) listedAgents
  end.

(** the body of [getWorkspaceFromConfig] once the configuration is there;
    [None] is [null] *)
Definition workspaceOf (config : OpenclawConfig) : option string :=
  let defaultsWorkspace : option string :=
    a ← agents config; d ← defaults a; defaults_workspace d in
  if JS.truthy_opt defaultsWorkspace
  then resolveUserPath <$> defaultsWorkspace
  else
    let agentWorkspace : option string :=
      a ← agent config; agent_workspace a in
    if JS.truthy_opt agentWorkspace
    then resolveUserPath <$> agentWorkspace
    else
      let listedAgents : list AgentEntry :=
        default [] (a ← agents config; list_ a) in
      let found : option string :=
        e ← defaultAgent listedAgents; workspace e in
      if JS.truthy_opt found
      then resolveUserPath <$> found
      else None.

Definition getWorkspaceFromConfig (env : Env) (files : string → FileState)
    (cache : Cache) : option string * Cache :=
  match readOpenclawConfig env files cache with
  | (Some config, cache') => (workspaceOf config, cache')
  | (None, cache') => (None, cache')
  end.

Definition getDefaultWorkspace : string :=
  path_join [homedir; ".openclaw"; "workspace"].

(** [workspace || getDefaultWorkspace()] *)
Definition root_of (w : option string) : string :=
  match w with
  | Some s => if JS.truthy s then s else getDefaultWorkspace
  | None => getDefaultWorkspace
  end.

Definition getSkillsPath (scope : Manager.Scope) : string :=
  match scope with
  | Manager.global => path_join [getDefaultWorkspace; "skills"]
  | Manager.project => path_join [cwd; "skills"]
  end.

Definition getSkillsPathAsync (env : Env) (files : string → FileState)
    (scope : Manager.Scope) (cache : Cache) : string * Cache :=
  match scope with
  | Manager.global =>
      let '(w, cache') := getWorkspaceFromConfig env files cache in
      (path_join [root_of w; "skills"], cache')
  | Manager.project => (path_join [cwd; "skills"], cache)
  end.

Definition getLockFilePath (scope : Manager.Scope) : string :=
  match scope with
  | Manager.global => path_join [getDefaultWorkspace; "lock.json"]
  | Manager.project => path_join [cwd; ".outclaw"; "lock.json"]
  end.

Definition getLockFilePathAsync (env : Env) (files : string → FileState)
    (scope : Manager.Scope) (cache : Cache) : string * Cache :=
  match scope with
  | Manager.global =>
      let '(w, cache') := getWorkspaceFromConfig env files cache in
      (path_join [root_of w; "lock.json"], cache')
  | Manager.project => (path_join [cwd; ".outclaw"; "lock.json"], cache)
  end.

Definition getSkillPath (skillName : string) (scope : Manager.Scope) : string :=
  path_join [getSkillsPath scope; skillName].

Definition getSkillPathAsync (env : Env) (files : string → FileState)
    (skillName : string) (scope : Manager.Scope) (cache : Cache) :
    string * Cache :=
  let '(skillsPath, cache') := getSkillsPathAsync env files scope cache in
  (path_join [skillsPath; skillName], cache').

End platform.

(** a configuration whose only content is [agents.defaults.workspace] *)
Definition config_with_defaults (w : string) : OpenclawConfig :=
  mkOpenclawConfig (Some (mkAgents (Some (mkDefaults (Some w))) None)) None.

(** a configuration whose only content is a list of agents *)
Definition config_with_list (l : list AgentEntry) : OpenclawConfig :=
  mkOpenclawConfig (Some (mkAgents None (Some l))) None.

(** a file system that has one configuration at every path, and one that has
    none *)
Definition always (c : OpenclawConfig) : string → FileState := λ _, Object c.
Definition nothing : string → FileState := λ _, Unreadable.

Definition no_env : Env := mkEnv None None.

(** a path module for closed statements: [resolve] keeps an absolute path
    and puts the working directory before another one, [join] puts a slash
    between the parts *)
Definition demo_resolve (p : string) : string :=
  if JS.startsWith p "/" then p else "/work/" +:+ p.
Definition demo_join (parts : list string) : string := JS.join "/" parts.

End Paths.

(** ** Credentials (core/config.ts) *)

Module Config.

(** [OutclawConfig] *)
Record OutclawConfig : Type := mkOutclawConfig {
  api_key : option string;
  agent_id : option string;
  agent_name : option string;
  verified : option bool;
  api_base : option string;
}.

Definition empty_config : OutclawConfig :=
  mkOutclawConfig None None None None None.

(** The configuration file: missing, holding text that [JSON.parse] rejects,
    holding the text [null], or holding another JSON value, of which [c]
    gives the fields that are read. *)
Inductive ConfigFile : Type :=
  | Missing
  | Garbled
  | Null
  | Parsed (c : OutclawConfig).

(** the environment variables that are read *)
Record Env : Type := mkEnv {
  OUTCLAW_API_KEY : option string;
  OUTCLAW_API_BASE : option string;
}.

Definition DEFAULT_API_BASE : string := "https://outclaws.ai/api".

(** [loadConfig()]: [None] is the value [null], which the cast lets through *)
Definition loadConfig (file : ConfigFile) : option OutclawConfig :=
  match file with
  | Missing => Some empty_config
  | Garbled => Some empty_config
  | Null => None
  | Parsed c => Some c
  end.

(** [config.key]: reading a property of [null] throws *)
Definition read {A : Type} (config : option OutclawConfig) (key : string)
    (field : OutclawConfig → A) : result A :=
  match config with
  | Some c => Ok (field c)
  | None =>
      Throw (TypeError ("Cannot read properties of null (reading '"
                        +:+ key +:+ "')"))
  end.

(** [saveConfig(config)]: the file holds the JSON text of [config] *)
Definition saveConfig (config : OutclawConfig) (file : ConfigFile) : ConfigFile :=
  Parsed config.

(** [clearConfig()] *)
Definition clearConfig (file : ConfigFile) : ConfigFile :=
  match file with
  | Missing => file
  | _ => Missing
  end.

Definition getApiKey (env : Env) (file : ConfigFile) : result (option string) :=
  if JS.truthy_opt (OUTCLAW_API_KEY env) then Ok (OUTCLAW_API_KEY env)
  else read (loadConfig file) "api_key" api_key.

Definition getApiBase (env : Env) (file : ConfigFile) : result string :=
  let from_file : result string :=
    b ← read (loadConfig file) "api_base" api_base;
    Ok (default DEFAULT_API_BASE (JS.or_else b None)) in
  match OUTCLAW_API_BASE env with
  | Some b => if JS.truthy b then Ok b else from_file
  | None => from_file
  end.

Definition isLoggedIn (env : Env) (file : ConfigFile) : result bool :=
  apiKey ← getApiKey env file;
  Ok (JS.truthy_opt apiKey).

End Config.

(** ** The commands (commands/install.ts, uninstall.ts, logout.ts) *)

Module Commands.

(** What a command shows, in order: the spinner, the logger, a prompt, and
    the events of the registry fetcher. *)
Inductive Line : Type :=
  | SpinStart (text : string)
  | SpinText (text : string)
  | SpinStop
  | SpinFail (text : string)
  | SpinSucceed (text : string)
  | LogInfo (message : string)
  | LogSuccess (message : string)
  | LogError (message : string)
  | LogWarn (message : string)
  | LogDim (message : string)
  | LogBox (title content : string)
  | Ask (message : string)
  | Api (ev : Registry.Event).

(** How a command ends: it returns, it leaves an exception uncaught, or it
    ends the process with a code. *)
Inductive Outcome (A : Type) : Type :=
  | Returned (a : A)
  | Raised (e : exn)
  | Exited (code : Z).
Arguments Returned {A} a.
Arguments Raised {A} e.
Arguments Exited {A} code.

(** A command over a store [S]: the lines shown, the outcome, the store as
    the command left it. *)
Definition C (S A : Type) : Type := S → list Line * Outcome A * S.

Definition ret {S A : Type} (a : A) : C S A := λ s, ([], Returned a, s).

Definition raise {S A : Type} (e : exn) : C S A := λ s, ([], Raised e, s).

(** [process.exit(code)] *)
Definition exit {S A : Type} (code : Z) : C S A := λ s, ([], Exited code, s).

Definition say {S : Type} (l : Line) : C S unit := λ s, ([l], Returned (), s).

Definition bindC {S A B : Type} (m : C S A) (k : A → C S B) : C S B := λ s,
  match m s with
  | (l, Returned a, s') => let '(l', o, s'') := k a s' in (l ++ l', o, s'')
  | (l, Raised e, s') => (l, Raised e, s')
  | (l, Exited code, s') => (l, Exited code, s')
  end.

(** [try { m } catch (error) { h error }]: ending the process is no
    exception *)
Definition catch {S A : Type} (m : C S A) (h : exn → C S A) : C S A := λ s,
  match m s with
  | (l, Raised e, s') => let '(l', o, s'') := h e s' in (l ++ l', o, s'')
  | r => r
  end.

Definition liftR {S A : Type} (r : result A) : C S A := λ s,
  match r with
  | Ok a => ([], Returned a, s)
  | Throw e => ([], Raised e, s)
  end.

Definition liftM {A : Type} (m : Manager.M A) : C Manager.Disk A := λ d,
  match m d with
  | (Ok a, d') => ([], Returned a, d')
  | (Throw e, d') => ([], Raised e, d')
  end.

Definition liftF {S A : Type} (f : Registry.F A) : C S A := λ s,
  match f with
  | (evs, Ok a) => (Api <$> evs, Returned a, s)
  | (evs, Throw e) => (Api <$> evs, Raised e, s)
  end.

Notation "'let*' x ':=' m 'in' k" := (bindC m (λ x, k))
  (at level 10, x name, m at level 100, k at level 200, only parsing).
Notation "m ';;' k" := (bindC m (λ _, k))
  (at level 100, k at level 200, right associativity, only parsing).

(** [InstallOptions]; an absent flag is [false] *)
Record InstallOptions : Type := mkInstallOptions {
  i_global : bool;
  i_force : bool;
  i_yes : bool;
}.

(** [UninstallOptions] *)
Record UninstallOptions : Type := mkUninstallOptions {
  u_global : bool;
  u_yes : bool;
}.

(** [LogoutOptions] *)
Record LogoutOptions : Type := mkLogoutOptions {
  l_yes : bool;
}.

Definition scope_of (global : bool) : Manager.Scope :=
  if global then Manager.global else Manager.project.

(** a scope inside a template literal *)
Definition scope_text (scope : Manager.Scope) : string :=
  match scope with
  | Manager.global => "global"
  | Manager.project => "project"
  end.

Definition quoted (s : string) : string := JS.dq +:+ s +:+ JS.dq.

Definition overwrite_question (n : string) : string :=
  "Skill " +:+ quoted n +:+ " already exists. Overwrite?".

Definition uninstall_question (n : string) : string :=
  "Are you sure you want to uninstall " +:+ quoted n +:+ "?".

Definition logout_question (agentName : string) : string :=
  "Log out from agent " +:+ quoted agentName +:+ "?".

Definition not_found_in_message (n : string) (scope : Manager.Scope) : string :=
  "Skill " +:+ quoted n +:+ " not found in " +:+ scope_text scope +:+ " skills".

Definition login_first_message : string :=
  "Run " +:+ quoted "outclaw login" +:+ " to authenticate.".

Definition authentication_failed_message : string :=
  "Authentication failed. Please run " +:+ quoted "outclaw login" +:+ ".".

(** the message of what [path.join] throws for an undefined part *)
Definition path_argument_message : string :=
  "The " +:+ quoted "path" +:+ " argument must be of type string. Received undefined".

Section commands.

(** The platform and the libraries: the rest of the address parser, the
    checks of the schema library, the front-matter library, [fetch], the
    message of a library's exception, the registry client built for a base
    address and a key, the answer to a [confirm] prompt (a prompt that is
    closed throws), the clock, and the skills root resolved for a scope. *)
Variable url_after_scheme : string → string → option string.
Variable is_email : string → bool.
Variable is_url : string → bool.
Variable matter : string → result (Parser.JSValue * string).
Variable fetch : string → result GitHub.Response.
Variable library_message : exn → string.
Variable new_ApiClient : string → option string → Registry.ApiClient.
Variable confirm : string → result bool.
Variable now : string.
Variable skillsPath : Manager.Scope → string.

(** [error.message] *)
Definition message_of (error : exn) : string :=
  match error with
  | Error m => m
  | TypeError m => m
  | ApiError m _ => m
  | e => library_message e
  end.

(** [new SkillManager(scope)], with the root its first use resolves *)
Definition manager_of (scope : Manager.Scope) : Manager.SkillManager :=
  Manager.mkSkillManager scope (skillsPath scope).

(** [ApiClient.create()] *)
Definition ApiClient_create (env : Config.Env) (file : Config.ConfigFile) :
    result Registry.ApiClient :=
  apiBase ← Config.getApiBase env file;
  apiKey ← Config.getApiKey env file;
  Ok (new_ApiClient apiBase apiKey).

(** *** [installCommand] *)

(** the registry branch: the name, the content and the source to record.
    The resolver gives every registry source its [registryId]. *)
Definition from_registry (env : Config.Env) (file : Config.ConfigFile)
    (source : Resolver.ParsedSource) :
    C Manager.Disk (option string * string * Manager.SkillSource) :=
  let* logged := liftR (Config.isLoggedIn env file) in
  if negb logged then
    say (SpinFail "Authentication required") ;;
    say (LogError "You must be logged in to install from the registry.") ;;
    say (LogDim login_first_message) ;;
    exit 1
  else
    let registryId := GitHub.interpolate (Resolver.registryId source) in
    say (SpinText ("Searching registry for " +:+ quoted registryId +:+ "...")) ;;
    let* client := liftR (ApiClient_create env file) in
    let* result := liftF (Registry.fetchFromRegistry client registryId) in
    say (SpinText ("Found skill: " +:+ Registry.name result)) ;;
    ret (Some (Registry.name result), Registry.content result,
         {| Manager.type := Manager.registry; Manager.url_ := None;
            Manager.ref := None;
            Manager.id := Some (Registry.workflowId result) |}).

(** the hosted branch *)
Definition from_github (source : Resolver.ParsedSource) :
    C Manager.Disk (option string * string * Manager.SkillSource) :=
  let ownerRepo :=
    GitHub.interpolate (Resolver.owner source) +:+ "/"
    +:+ GitHub.interpolate (Resolver.repo source) in
  say (SpinText ("Fetching from GitHub: " +:+ ownerRepo +:+ "...")) ;;
  let* result := liftR (GitHub.fetchFromGitHub fetch source) in
  say (SpinText ("Found skill: " +:+ GitHub.interpolate (GitHub.name result))) ;;
  ret (GitHub.name result, GitHub.content result,
       {| Manager.type := Manager.github;
          Manager.url_ := Some ("https://github.com/" +:+ ownerRepo);
          Manager.ref := Resolver.ref source; Manager.id := None |}).

(** the last step: the call of the manager and the report *)
Definition install_and_report (options : InstallOptions) (n content : string)
    (skillSource : Manager.SkillSource) : C Manager.Disk unit :=
  let scope := scope_of (i_global options) in
  say (SpinText ("Installing " +:+ n +:+ "...")) ;;
  let* skillPath :=
    liftM (Manager.installSkill (manager_of scope) now n content
             {| Manager.force := i_force options;
                Manager.opt_source := skillSource |}) in
  say (SpinSucceed ("Installed " +:+ n)) ;;
  say (LogInfo EmptyString) ;;
  say (LogBox ("Skill Installed: " +:+ n)
         (JS.join JS.nl
            [ "Path:  " +:+ skillPath;
              "Scope: " +:+ scope_text scope;
              EmptyString;
              "Use /" +:+ n +:+ " in OpenClaw to invoke this skill" ])).

(** the check for an existing skill, then the last step; an undefined name
    makes the path of the skill throw *)
Definition check_and_install (options : InstallOptions) (name : option string)
    (content : string) (skillSource : Manager.SkillSource) :
    C Manager.Disk unit :=
  let scope := scope_of (i_global options) in
  match name with
  | None => raise (TypeError path_argument_message)
  | Some n =>
      let* exists_ := liftM (Manager.skillExists (manager_of scope) n) in
      if exists_ && negb (i_force options) then
        say SpinStop ;;
        if negb (i_yes options) then
          say (Ask (overwrite_question n)) ;;
          let* proceed := liftR (confirm (overwrite_question n)) in
          if negb proceed then say (LogInfo "Installation cancelled")
          else
            say (SpinStart "Installing...") ;;
            install_and_report options n content skillSource
        else
          say (SpinStart "Installing...") ;;
          install_and_report options n content skillSource
      else install_and_report options n content skillSource
  end.

(** the [catch] block of [installCommand]; every exception of the model is
    an instance of [Error] *)
Definition install_failed (error : exn) : C Manager.Disk unit :=
  say (SpinFail "Installation failed") ;;
  say (LogError
         match error with
         | ApiError m statusCode =>
             if (statusCode =? 401)%Z then authentication_failed_message
             else if (statusCode =? 404)%Z then "Skill not found in the registry."
             else m
         | e => message_of e
         end) ;;
  exit 1.

(** [installCommand(specifier, options)], on the disk of the scope that the
    options select *)
Definition installCommand (env : Config.Env) (file : Config.ConfigFile)
    (specifier : string) (options : InstallOptions) : C Manager.Disk unit :=
  say (SpinStart "Resolving skill...") ;;
  catch
    (let* source := liftR (Resolver.parseSkillSpecifier url_after_scheme specifier) in
     match Resolver.type source with
     | Resolver.local =>
         say (SpinFail "Local installation not yet implemented") ;; exit 1
     | Resolver.url =>
         say (SpinFail "URL installation not yet implemented") ;; exit 1
     | Resolver.registry =>
         let* fetched := from_registry env file source in
         let '(name, content, skillSource) := fetched in
         check_and_install options name content skillSource
     | Resolver.github =>
         let* fetched := from_github source in
         let '(name, content, skillSource) := fetched in
         check_and_install options name content skillSource
     end)
    install_failed.

(** *** [uninstallCommand] *)

Definition uninstall_and_report (scope : Manager.Scope) (n : string) :
    C Manager.Disk unit :=
  say (SpinStart ("Uninstalling " +:+ n +:+ "...")) ;;
  liftM (Manager.uninstallSkill (manager_of scope) n) ;;
  say (SpinSucceed ("Uninstalled " +:+ n)).

(** [uninstallCommand(name, options)], on the disk of the scope that the
    options select *)
Definition uninstallCommand (n : string) (options : UninstallOptions) :
    C Manager.Disk unit :=
  catch
    (let scope := scope_of (u_global options) in
     let* skill := (λ d, ([], Returned (Manager.getSkill is_email is_url matter
                                          (manager_of scope) n d), d)) in
     match skill with
     | None =>
         say (LogError (not_found_in_message n scope)) ;; exit 1
     | Some _ =>
         if negb (u_yes options) then
           say (Ask (uninstall_question n)) ;;
           let* proceed := liftR (confirm (uninstall_question n)) in
           if negb proceed then say (LogInfo "Uninstall cancelled")
           else uninstall_and_report scope n
         else uninstall_and_report scope n
     end)
    (λ error, say (LogError (message_of error)) ;; exit 1).

(** *** [logoutCommand] *)

(** [logoutCommand(options)], on the configuration file *)
Definition logoutCommand (env : Config.Env) (options : LogoutOptions) :
    C Config.ConfigFile unit :=
  let* logged := (λ file, liftR (Config.isLoggedIn env file) file) in
  if negb logged then say (LogInfo "You are not logged in.")
  else
    let* config_name :=
      (λ file, liftR (Config.read (Config.loadConfig file) "agent_name"
                         Config.agent_name) file) in
    let agentName := default "Unknown" (JS.or_else config_name None) in
    let clear_and_report : C Config.ConfigFile unit :=
      (λ file, ([], Returned (), Config.clearConfig file)) ;;
      say (LogSuccess "Logged out successfully.") ;;
      say (LogDim "Your API key has been removed from local storage.") in
    if negb (l_yes options) then
      say (Ask (logout_question agentName)) ;;
      let* proceed := liftR (confirm (logout_question agentName)) in
      if negb proceed then say (LogInfo "Logout cancelled.")
      else clear_and_report
    else clear_and_report.

End commands.

(** *** Sample inputs *)

(** a [fetch] that answers every address with one document *)
Definition demo_fetch (text : string) : string → result GitHub.Response :=
  λ _, Ok (GitHub.mkResponse true 200 "OK" text).

Definition no_library_message : exn → string := λ _, EmptyString.

Definition demo_new_ApiClient : string → option string → Registry.ApiClient :=
  λ _ _, Registry.demo_client.

(** a user who agrees to every prompt, and one who declines *)
Definition agree : string → result bool := λ _, Ok true.
Definition decline : string → result bool := λ _, Ok false.

Definition demo_skillsPath (scope : Manager.Scope) : string :=
  match scope with
  | Manager.global => "/home/user/.openclaw/workspace/skills"
  | Manager.project => "skills"
  end.

Definition no_key : Config.Env := Config.mkEnv None None.

Definition key_in_env : Config.Env := Config.mkEnv (Some "oc_env") None.

Definition saved_login : Config.ConfigFile :=
  Config.Parsed (Config.mkOutclawConfig (Some "oc_file") (Some "a1")
                   (Some "agent") (Some true) None).



(** a hosted document that names itself [demo] *)
Definition demo_hosted_text : string := "name: demo".

End Commands.

(** * Properties *)

(** ** Strings *)

Lemma app_cons (c : ascii) (a b : string) :
  String c a +:+ b = String c (a +:+ b).
Proof. reflexivity. Qed.

Lemma app_empty (b : string) : EmptyString +:+ b = b.
Proof. reflexivity. Qed.

Lemma startsWith_app (p x : string) : JS.startsWith (p +:+ x) p = true.
Proof.
  induction p as [|c p IH]; [reflexivity|].
  rewrite app_cons. simpl. by rewrite Ascii.eqb_refl, IH.
Qed.

Lemma slice_app (p x : string) : JS.slice (JS.length p) (p +:+ x) = x.
Proof.
  induction p as [|c p IH]; [by destruct x|].
  rewrite app_cons. simpl. apply IH.
Qed.

Lemma startsWith_includes (s p : string) :
  JS.includes s p = false → JS.startsWith s p = false.
Proof.
  intros H. destruct (JS.startsWith s p) eqn:E; [|done].
  destruct s; simpl in H; by rewrite E in H.
Qed.

(** A pattern whose first code unit is outside a class does not occur in a
    string made of code units of the class. *)
Lemma all_chars_not_includes (P : ascii → bool) (c : ascii) (p s : string) :
  P c = false → JS.all_chars P s = true → JS.includes s (String c p) = false.
Proof.
  intros Hc. induction s as [|d s IH]; [done|].
  simpl. intros [Hd Hs]%andb_prop.
  rewrite (IH Hs), orb_false_r.
  destruct (Ascii.eqb c d) eqn:E; [|done].
  apply Ascii.eqb_eq in E as ->. congruence.
Qed.

(** A string without the separator is not split. *)
Lemma split_no_sep (sep : ascii) (s : string) :
  JS.includes s (String sep EmptyString) = false → JS.split sep s = [s].
Proof.
  induction s as [|c s IH]; [done|].
  simpl. rewrite Ascii.eqb_sym.
  destruct (Ascii.eqb c sep) eqn:E; [done|].
  simpl. intros H. by rewrite (IH H).
Qed.

(** Splitting at the first separator. *)
Lemma split_app_sep (sep : ascii) (a b : string) :
  JS.includes a (String sep EmptyString) = false →
  JS.split sep (a +:+ String sep b) = a :: JS.split sep b.
Proof.
  induction a as [|c a IH].
  - intros _. rewrite app_empty. simpl. by rewrite Ascii.eqb_refl.
  - rewrite app_cons. simpl. rewrite Ascii.eqb_sym.
    destruct (Ascii.eqb c sep) eqn:E; [done|].
    simpl. intros H. by rewrite (IH H).
Qed.

(** ** Specifier resolution *)

(** Without the host token the resolver reaches no throwing call. *)
Lemma parseSkillSpecifier_returns_without_host
    (uas : string → string → option string) (s : string) :
  JS.includes s "github.com" = false →
  ∃ p, Resolver.parseSkillSpecifier uas s = Ok p.
Proof.
  intros H. unfold Resolver.parseSkillSpecifier. rewrite H.
  repeat case_match; eauto.
Qed.

(** A specifier that holds the host token, lacks the [github:] prefix and
    has no URL scheme makes the resolver throw. *)
Lemma parseSkillSpecifier_throws_without_scheme
    (uas : string → string → option string) (s : string) :
  JS.startsWith s "github:" = false →
  JS.includes s "github.com" = true →
  Resolver.split_scheme s = None →
  Resolver.parseSkillSpecifier uas s = Throw Resolver.Invalid_URL.
Proof.
  intros H1 H2 H3. unfold Resolver.parseSkillSpecifier.
  rewrite H1, H2. unfold Resolver.URL_pathname. by rewrite H3.
Qed.

(** C1 (the code departs from the specification): on the specifier
    [github.com/owner/repo], which holds the host token and is no URL, the
    resolver does not classify the string but throws the [TypeError] of the
    [URL] constructor, whatever the URL parser does after a scheme. *)
Theorem parseSkillSpecifier_throws_on_bare_host
    (uas : string → string → option string) :
  Resolver.parseSkillSpecifier uas "github.com/owner/repo"
  = Throw (TypeError "Invalid URL").
Proof. by apply parseSkillSpecifier_throws_without_scheme. Qed.

Lemma hex_run_all (n : nat) (s r : string) :
  Resolver.hex_run n s = Some r →
  JS.all_chars Resolver.hex_or_dash r = true → JS.all_chars Resolver.hex_or_dash s = true.
Proof.
  revert s. induction n as [|n IH]; intros s; simpl.
  - by intros [= ->].
  - destruct s as [|c s]; [done|].
    destruct (Resolver.is_hex c) eqn:E; [|done].
    intros H Hr. simpl. unfold Resolver.hex_or_dash at 1. rewrite E. simpl. eauto.
Qed.

Lemma dash_all (s r : string) :
  Resolver.dash s = Some r →
  JS.all_chars Resolver.hex_or_dash r = true → JS.all_chars Resolver.hex_or_dash s = true.
Proof.
  destruct s as [|c s]; [done|]. simpl.
  destruct (Ascii.eqb c "-") eqn:E; [|done].
  intros [= ->] Hr. simpl. unfold Resolver.hex_or_dash at 1.
  by rewrite E, orb_true_r.
Qed.

Lemma UUID_PATTERN_all (s : string) :
  Resolver.UUID_PATTERN_test s = true → JS.all_chars Resolver.hex_or_dash s = true.
Proof.
  unfold Resolver.UUID_PATTERN_test. intros H.
  destruct (Resolver.hex_run 8 s) as [s1|] eqn:E1; cbn [mbind option_bind] in H; [|done].
  destruct (Resolver.dash s1) as [s2|] eqn:E2; cbn [mbind option_bind] in H; [|done].
  destruct (Resolver.hex_run 4 s2) as [s3|] eqn:E3; cbn [mbind option_bind] in H; [|done].
  destruct (Resolver.dash s3) as [s4|] eqn:E4; cbn [mbind option_bind] in H; [|done].
  destruct (Resolver.hex_run 4 s4) as [s5|] eqn:E5; cbn [mbind option_bind] in H; [|done].
  destruct (Resolver.dash s5) as [s6|] eqn:E6; cbn [mbind option_bind] in H; [|done].
  destruct (Resolver.hex_run 4 s6) as [s7|] eqn:E7; cbn [mbind option_bind] in H; [|done].
  destruct (Resolver.dash s7) as [s8|] eqn:E8; cbn [mbind option_bind] in H; [|done].
  destruct (Resolver.hex_run 12 s8) as [s9|] eqn:E9; [|done].
  destruct s9; [|done].
  eapply hex_run_all; [exact E1|]. eapply dash_all; [exact E2|].
  eapply hex_run_all; [exact E3|]. eapply dash_all; [exact E4|].
  eapply hex_run_all; [exact E5|]. eapply dash_all; [exact E6|].
  eapply hex_run_all; [exact E7|]. eapply dash_all; [exact E8|].
  eapply hex_run_all; [exact E9|]. reflexivity.
Qed.

(** C7: a specifier that matches [UUID_PATTERN] resolves to the registry
    variant whose id is the specifier itself; none of the earlier rules
    (prefix, host token, URL scheme, local path, slash) captures it. *)
Theorem uuid_resolves_to_registry
    (uas : string → string → option string) (s : string) :
  Resolver.UUID_PATTERN_test s = true →
  Resolver.parseSkillSpecifier uas s = Ok (Resolver.registry_ref s).
Proof.
  intros H. pose proof (UUID_PATTERN_all s H) as Hall.
  assert (Hno : ∀ c p, Resolver.hex_or_dash c = false →
                       JS.includes s (String c p) = false)
    by (intros; by apply (all_chars_not_includes Resolver.hex_or_dash)).
  unfold Resolver.parseSkillSpecifier.
  rewrite (startsWith_includes s "github:") by by apply Hno.
  rewrite (Hno "g"%char "ithub.com") by done.
  rewrite (startsWith_includes s "http://") by by apply Hno.
  rewrite (startsWith_includes s "https://") by by apply Hno.
  rewrite (startsWith_includes s "./") by by apply Hno.
  rewrite (startsWith_includes s "/") by by apply Hno.
  rewrite (startsWith_includes s "../") by by apply Hno.
  rewrite (Hno "/"%char EmptyString) by done.
  simpl. by rewrite H.
Qed.

Lemma uuid_resolves_to_registry_witness :
  Resolver.UUID_PATTERN_test "123e4567-E89B-12d3-a456-426614174000" = true ∧
  Resolver.parseSkillSpecifier Resolver.simple_after_scheme
    "123e4567-E89B-12d3-a456-426614174000"
  = Ok (Resolver.registry_ref "123e4567-E89B-12d3-a456-426614174000").
Proof.
  split; [reflexivity|].
  apply (uuid_resolves_to_registry Resolver.simple_after_scheme). reflexivity.
Defined.

(** C6 (as the code has it): the prefix of rule 1 is the literal [github:].
    For every owner without a slash and every repo without a slash or an at
    sign, the specifier [github:owner/repo] resolves to the hosted-ref
    variant with exactly that owner and repo and neither ref nor subpath;
    and [github:acme/widgets@v2/tools/lint] resolves to owner [acme], repo
    [widgets], ref [v2] and subpath [tools/lint]. *)
Theorem github_prefix_resolution
    (uas : string → string → option string) (o r : string) :
  JS.includes o "/" = false →
  JS.includes r "/" = false →
  JS.includes r "@" = false →
  Resolver.parseSkillSpecifier uas ("github:" +:+ o +:+ "/" +:+ r)
  = Ok (Resolver.hosted_ref o r None None)
  ∧ Resolver.parseSkillSpecifier uas "github:acme/widgets@v2/tools/lint"
  = Ok (Resolver.hosted_ref "acme" "widgets" (Some "v2") (Some "tools/lint")).
Proof.
  intros Ho Hr Hat. split; [|reflexivity].
  unfold Resolver.parseSkillSpecifier.
  rewrite startsWith_app.
  change 7%nat with (JS.length "github:"). rewrite slice_app.
  change ("/" +:+ r) with (String "/" r).
  rewrite (split_app_sep "/"%char o r Ho), (split_no_sep "/"%char r Hr).
  simpl. rewrite Ho. simpl.
  assert (JS.or_else (JS.or_else (Some r) (Some r)) (Some EmptyString) = Some r)
    as -> by by destruct r.
  simpl. by rewrite Hat.
Qed.

Lemma github_prefix_resolution_witness :
  Resolver.parseSkillSpecifier Resolver.simple_after_scheme
    ("github:" +:+ "acme" +:+ "/" +:+ "widgets")
  = Ok (Resolver.hosted_ref "acme" "widgets" None None)
  ∧ Resolver.parseSkillSpecifier Resolver.simple_after_scheme
      "github:acme/widgets@v2/tools/lint"
  = Ok (Resolver.hosted_ref "acme" "widgets" (Some "v2") (Some "tools/lint")).
Proof.
  apply (github_prefix_resolution Resolver.simple_after_scheme "acme" "widgets");
    reflexivity.
Defined.

(** C6 (counterexample to the specification): the code has no [hosted:]
    prefix, so
    [hosted:acme/widgets@v2/tools/lint] falls through to the shorthand rule,
    which keeps the prefix in the owner and drops the subpath. *)
Lemma hosted_prefix_counterexample :
  Resolver.parseSkillSpecifier Resolver.simple_after_scheme
    "hosted:acme/widgets@v2/tools/lint"
  = Ok (Resolver.hosted_ref "hosted:acme" "widgets" (Some "v2") None)
  ∧ Resolver.parseSkillSpecifier Resolver.simple_after_scheme
      "hosted:acme/widgets@v2/tools/lint"
  ≠ Ok (Resolver.hosted_ref "acme" "widgets" (Some "v2") (Some "tools/lint")).
Proof. split; [reflexivity|discriminate]. Qed.

(** ** The local registry *)

Import Manager.

Lemma findIndex_bounds {A : Type} (p : A → bool) (a : list A) :
  (findIndex p a = -1 ∨ 0 ≤ findIndex p a)%Z.
Proof.
  induction a as [|x a IH]; simpl; [by left|].
  destruct (p x); [by right|].
  destruct (Z.ltb_spec (findIndex p a) 0); [by left|right; lia].
Qed.

(** [findIndex] finds nothing exactly when no element satisfies the test. *)
Lemma findIndex_none {A : Type} (p : A → bool) (a : list A) :
  (findIndex p a < 0)%Z → ∀ x, x ∈ a → p x = false.
Proof.
  induction a as [|y a IH]; simpl; intros H x Hx.
  - by apply elem_of_nil in Hx.
  - destruct (p y) eqn:Ey; [lia|].
    destruct (Z.ltb_spec (findIndex p a) 0) as [Hlt|Hge]; [|lia].
    apply elem_of_cons in Hx as [->|Hx]; eauto.
Qed.

(** Otherwise it is the first position whose element satisfies the test. *)
Lemma findIndex_some {A : Type} (p : A → bool) (a : list A) :
  (0 ≤ findIndex p a)%Z →
  ∃ x, a !! Z.to_nat (findIndex p a) = Some x ∧ p x = true ∧
       ∀ j y, (j < Z.to_nat (findIndex p a))%nat → a !! j = Some y → p y = false.
Proof.
  induction a as [|y a IH]; simpl; [lia|].
  destruct (p y) eqn:Ey.
  - intros _. exists y. repeat split; [done|]. intros j z Hj. simpl in Hj. lia.
  - destruct (Z.ltb_spec (findIndex p a) 0) as [Hlt|Hge]; [lia|].
    intros _. destruct (IH Hge) as (x & Hx & Hp & Hfirst).
    exists x. replace (Z.to_nat (findIndex p a + 1)) with (S (Z.to_nat (findIndex p a))) by lia.
    repeat split; [done..|].
    intros [|j] z Hj; simpl; [by intros [= <-]|].
    apply Hfirst. lia.
Qed.

Lemma findIndex_found {A : Type} (p : A → bool) (a : list A) (x : A) :
  x ∈ a → p x = true → (0 ≤ findIndex p a)%Z.
Proof.
  intros Hx Hp. destruct (findIndex_bounds p a) as [H|H]; [|done].
  assert (p x = false) by (apply (findIndex_none p a); [lia|done]). congruence.
Qed.

Lemma getManifest_run (this : SkillManager) (d : Disk) :
  getManifest this d = (Ok (manifest_of d), d).
Proof.
  unfold getManifest, try_catch, read_lockFile, manifest_of.
  by destruct (lockFile d).
Qed.

Lemma updateManifest_run (this : SkillManager) (now n : string)
    (src : SkillSource) (d : Disk) :
  updateManifest this now n src d =
  (Ok (), mkDisk (skillsDir d)
            (Json {| manifest_version := manifest_version (manifest_of d);
                     skills := upserted this now n src (manifest_of d) |})).
Proof.
  unfold updateManifest, bindM. rewrite getManifest_run. reflexivity.
Qed.

Lemma removeFromManifest_run (this : SkillManager) (n : string) (d : Disk) :
  removeFromManifest this n d =
  (Ok (), mkDisk (skillsDir d)
            match lockFile d with
            | Json m =>
                Json {| manifest_version := manifest_version m;
                        skills := filter (λ s, name s ≠ n) (skills m) |}
            | other => other
            end).
Proof.
  unfold removeFromManifest, try_catch, bindM, read_lockFile, write_lockFile, ret.
  destruct d as [sd lf]. by destruct lf.
Qed.

Lemma installSkill_run (this : SkillManager) (now n c : string)
    (options : InstallOptions) (d : Disk) :
  installSkill this now n c options d =
  if negb (force options) && bool_decide (is_Some (skillsDir d !! n))
  then (Throw (Conflict n), d)
  else (Ok (getSkillPath this n),
        mkDisk (<[n := <["SKILL.md" := c]> (default ∅ (skillsDir d !! n))]> (skillsDir d))
          (Json {| manifest_version := manifest_version (manifest_of d);
                   skills := upserted this now n (opt_source options) (manifest_of d) |})).
Proof.
  unfold installSkill, bindM at 1, pathExists_skill.
  destruct (negb (force options) && bool_decide (is_Some (skillsDir d !! n)));
    [done|].
  unfold bindM at 1, ensureDir_skill.
  destruct (skillsDir d !! n) as [dir|] eqn:E.
  - unfold bindM at 1, writeFile_skillMd. rewrite E.
    unfold bindM at 1. rewrite updateManifest_run. reflexivity.
  - unfold bindM at 1, writeFile_skillMd. simpl. rewrite lookup_insert_eq.
    unfold bindM at 1. rewrite updateManifest_run. simpl.
    by rewrite insert_insert_eq.
Qed.

Lemma uninstallSkill_run (this : SkillManager) (n : string) (d : Disk) :
  uninstallSkill this n d =
  if bool_decide (is_Some (skillsDir d !! n))
  then (Ok (), mkDisk (delete n (skillsDir d))
                 match lockFile d with
                 | Json m =>
                     Json {| manifest_version := manifest_version m;
                             skills := filter (λ s, name s ≠ n) (skills m) |}
                 | other => other
                 end)
  else (Throw (NotFound n), d).
Proof.
  unfold uninstallSkill, bindM at 1, pathExists_skill.
  destruct (bool_decide (is_Some (skillsDir d !! n))); simpl; [|done].
  unfold bindM, rm_skill. by rewrite removeFromManifest_run.
Qed.

(** When [n] has an entry, the upsert overwrites the first such entry. *)
Lemma upserted_found (this : SkillManager) (now n : string) (src : SkillSource)
    (m : OutclawManifest) (e : SkillManifest) :
  e ∈ skills m → name e = n →
  ∃ i e0, skills m !! i = Some e0 ∧ name e0 = n ∧
          (∀ j y, (j < i)%nat → skills m !! j = Some y → name y ≠ n) ∧
          upserted this now n src m = <[i := new_entry this now n src]> (skills m).
Proof.
  intros He Hn. unfold upserted.
  set (p := λ s : SkillManifest, String.eqb (name s) n).
  assert (Hge : (0 ≤ findIndex p (skills m))%Z).
  { apply (findIndex_found p _ e He). unfold p. by apply String.eqb_eq. }
  destruct (findIndex_some p (skills m) Hge) as (e0 & Hl & Hp & Hfirst).
  exists (Z.to_nat (findIndex p (skills m))), e0.
  repeat split; [done|by apply String.eqb_eq|..].
  - intros j y Hj Hy Hny. specialize (Hfirst j y Hj Hy).
    unfold p in Hfirst. apply String.eqb_neq in Hfirst. done.
  - by destruct (Z.leb_spec 0 (findIndex p (skills m))); [|lia].
Qed.

(** When [n] has no entry, the upsert appends one. *)
Lemma upserted_fresh (this : SkillManager) (now n : string) (src : SkillSource)
    (m : OutclawManifest) :
  (∀ e, e ∈ skills m → name e ≠ n) →
  upserted this now n src m = skills m ++ [new_entry this now n src].
Proof.
  intros Hfresh. unfold upserted.
  set (p := λ s : SkillManifest, String.eqb (name s) n).
  destruct (Z.leb_spec 0 (findIndex p (skills m))) as [Hge|Hlt]; [|done].
  destruct (findIndex_some p (skills m) Hge) as (e0 & Hl & Hp & _).
  apply String.eqb_eq in Hp.
  exfalso. eapply Hfresh; [|exact Hp]. by eapply list_elem_of_lookup_2.
Qed.

Lemma name_in_dec (n : string) (l : list SkillManifest) :
  (∃ e, e ∈ l ∧ name e = n) ∨ (∀ e, e ∈ l → name e ≠ n).
Proof.
  induction l as [|x l IH].
  - right. intros e He. by apply elem_of_nil in He.
  - destruct (decide (name x = n)) as [Hx|Hx].
    + left. exists x. split; [left|done].
    + destruct IH as [(e & He & Hn)|IH].
      * left. exists e. split; [by right|done].
      * right. intros e [->|He]%elem_of_cons; eauto.
Qed.

(** The names of the manifest after an upsert. *)
Lemma upserted_names (this : SkillManager) (now n : string) (src : SkillSource)
    (m : OutclawManifest) :
  name <$> upserted this now n src m =
  if bool_decide (n ∈ name <$> skills m) then name <$> skills m
  else (name <$> skills m) ++ [n].
Proof.
  destruct (name_in_dec n (skills m)) as [(e & He & Hn)|Hfresh].
  - rewrite bool_decide_eq_true_2
      by (apply list_elem_of_fmap; eauto).
    destruct (upserted_found this now n src m e He Hn) as (i & e0 & Hi & Hn0 & _ & ->).
    rewrite list_fmap_insert. simpl. apply list_insert_id.
    by rewrite list_lookup_fmap, Hi, <- Hn0.
  - rewrite bool_decide_eq_false_2.
    + rewrite upserted_fresh by done. by rewrite fmap_app.
    + intros (e & -> & He)%list_elem_of_fmap. by eapply Hfresh.
Qed.

Lemma upserted_unique (this : SkillManager) (now n : string) (src : SkillSource)
    (m : OutclawManifest) :
  NoDup (name <$> skills m) → NoDup (name <$> upserted this now n src m).
Proof.
  intros Hnd. rewrite upserted_names. case_bool_decide as Hin; [done|].
  apply NoDup_app. repeat split; [done| |apply NoDup_singleton].
  intros x Hx ->%list_elem_of_singleton. done.
Qed.

Lemma filtered_unique (n : string) (l : list SkillManifest) :
  NoDup (name <$> l) → NoDup (name <$> filter (λ s, name s ≠ n) l).
Proof.
  intros Hnd. eapply sublist_NoDup; [exact Hnd|].
  apply fmap_sublist, sublist_filter.
Qed.

Lemma unique_name_scope (l : list SkillManifest) :
  NoDup (name <$> l) → NoDup ((λ s, (name s, scope s)) <$> l).
Proof.
  intros Hnd. apply (NoDup_fmap_1 fst).
  by rewrite <- list_fmap_compose.
Qed.

(** Each operation keeps the names of the manifest pairwise distinct. *)
Lemma step_unique (d : Disk) (c : SkillManager * Op) :
  one_entry_per_name (manifest_of d) → one_entry_per_name (manifest_of (step d c)).
Proof.
  unfold one_entry_per_name. intros Hnd.
  destruct c as [this [now n content options|n]]; simpl.
  - rewrite installSkill_run. case_match; [done|].
    simpl. by apply upserted_unique.
  - rewrite uninstallSkill_run. case_match; [|done].
    unfold manifest_of in *. simpl.
    destruct (lockFile d); simpl; [done..|]. by apply filtered_unique.
Qed.

Lemma run_unique (ops : list (SkillManager * Op)) (d : Disk) :
  one_entry_per_name (manifest_of d) → one_entry_per_name (manifest_of (run ops d)).
Proof.
  revert d. induction ops as [|c ops IH]; intros d Hd; [done|].
  simpl. apply IH. by apply step_unique.
Qed.

(** [count_name] through the names of the entries. *)
Lemma count_name_names (n : string) (m : OutclawManifest) :
  count_name n m = length (filter (λ x, x = n) (name <$> skills m)).
Proof.
  unfold count_name. induction (skills m) as [|x l IH]; [done|].
  rewrite fmap_cons, !filter_cons.
  destruct (decide (name x = n)); simpl; by rewrite IH.
Qed.

Lemma count_absent (n : string) (l : list string) :
  n ∉ l → length (filter (λ x, x = n) l) = 0%nat.
Proof.
  induction l as [|x l IH]; [done|].
  intros [Hx Hl]%not_elem_of_cons. rewrite filter_cons.
  destruct (decide (x = n)); [congruence|]. by apply IH.
Qed.

Lemma count_present (n : string) (l : list string) :
  n ∈ l → (1 ≤ length (filter (λ x, x = n) l))%nat.
Proof.
  induction l as [|x l IH]; [by intros ?%elem_of_nil|].
  rewrite filter_cons. destruct (decide (x = n)); simpl; [lia|].
  intros [?|?]%elem_of_cons; [congruence|]. by apply IH.
Qed.

Lemma count_unique (n : string) (l : list string) :
  NoDup l → n ∈ l → length (filter (λ x, x = n) l) = 1%nat.
Proof.
  induction 1 as [|x l Hx Hnd IH]; [by intros ?%elem_of_nil|].
  rewrite filter_cons. destruct (decide (x = n)) as [->|Hne]; simpl.
  - intros _. by rewrite count_absent.
  - intros [?|?]%elem_of_cons; [congruence|]. by apply IH.
Qed.

(** From a lock file that is missing, whatever the skills root holds, every
    sequence of operations leads to a manifest with at most one entry per
    (name, scope) pair. *)
Lemma fresh_registry_invariant (ops : list (SkillManager * Op))
    (sd : gmap string (gmap string string)) :
  one_entry_per_name_scope (manifest_of (run ops (mkDisk sd Absent))).
Proof. apply unique_name_scope, run_unique, NoDup_nil_2. Qed.

(** With pairwise distinct names, the entry named [n] is the one the upsert
    finds. *)
Lemma unique_entry (l : list SkillManifest) (i : nat) (e e0 : SkillManifest) :
  NoDup (name <$> l) → l !! i = Some e0 → e ∈ l → name e = name e0 → e = e0.
Proof.
  intros Hnd Hi [j Hj]%list_elem_of_lookup_1 Hn.
  assert (i = j) as ->; [|congruence].
  apply (NoDup_lookup (name <$> l) i j (name e0)); [done|..];
    rewrite list_lookup_fmap; [by rewrite Hi|rewrite Hj; simpl; by rewrite Hn].
Qed.

(** C2: every sequence of install and uninstall operations, by managers of
    either scope, keeps at most one manifest entry per (name, scope) pair,
    starting from any manifest whose names are pairwise distinct (the empty
    manifest is one); an install of a name that has an entry overwrites that
    entry at its position, so the manifest keeps its length and holds one
    entry of that name; an uninstall leaves no entry of the name and keeps
    the others. *)
Theorem manifest_invariant_preserved
    (ops : list (SkillManager * Op)) (d : Disk) :
  one_entry_per_name (manifest_of d) →
  one_entry_per_name_scope (manifest_of (run ops d))
  ∧ (∀ this now n c options e,
       e ∈ skills (manifest_of d) → name e = n →
       (installSkill this now n c options d).1 = Ok (getSkillPath this n) →
       let m' := manifest_of (installSkill this now n c options d).2 in
       length (skills m') = length (skills (manifest_of d))
       ∧ count_name n m' = 1%nat
       ∧ ∃ i, skills (manifest_of d) !! i = Some e
              ∧ skills m' = <[i := new_entry this now n (opt_source options)]>
                              (skills (manifest_of d)))
  ∧ (∀ this n,
       (uninstallSkill this n d).1 = Ok () →
       let m' := manifest_of (uninstallSkill this n d).2 in
       count_name n m' = 0%nat
       ∧ skills m' = filter (λ s, name s ≠ n) (skills (manifest_of d))).
Proof.
  intros Hd. split; [|split].
  - apply unique_name_scope, run_unique, Hd.
  - intros this now n c options e He Hn Hok.
    rewrite installSkill_run in *. case_match; [done|]. simpl.
    destruct (upserted_found this now n (opt_source options) _ e He Hn)
      as (i & e0 & Hi & Hn0 & _ & Heq).
    assert (e = e0) as <- by (eapply unique_entry; eauto; congruence).
    split; [by rewrite Heq, length_insert|]. split; [|eauto].
    rewrite count_name_names. simpl. rewrite upserted_names.
    assert (n ∈ name <$> skills (manifest_of d))
      by (apply list_elem_of_fmap; eauto).
    rewrite bool_decide_eq_true_2 by done. by apply count_unique.
  - intros this n Hok. rewrite uninstallSkill_run in *. case_match; [|done].
    simpl. assert (Hm : skills (manifest_of (mkDisk (delete n (skillsDir d))
        match lockFile d with
        | Json m => Json {| manifest_version := manifest_version m;
                            skills := filter (λ s, name s ≠ n) (skills m) |}
        | other => other
        end)) = filter (λ s, name s ≠ n) (skills (manifest_of d))).
    { unfold manifest_of. simpl. by destruct (lockFile d). }
    split; [|done]. rewrite count_name_names, Hm. apply count_absent.
    intros (x & Hx & [Hne _]%list_elem_of_filter)%list_elem_of_fmap. done.
Qed.

Lemma manifest_invariant_preserved_witness :
  one_entry_per_name (manifest_of demo_disk)
  ∧ one_entry_per_name_scope (manifest_of (run demo_ops demo_disk))
  ∧ (let m' := manifest_of (installSkill demo_manager "t1" "demo" "new text"
                              (mkInstallOptions true demo_source) demo_disk).2 in
     length (skills m') = 1%nat ∧ count_name "demo" m' = 1%nat)
  ∧ count_name "demo"
      (manifest_of (uninstallSkill demo_manager "demo" demo_disk).2) = 0%nat.
Proof.
  assert (Hd : one_entry_per_name (manifest_of demo_disk))
    by apply NoDup_singleton.
  destruct (manifest_invariant_preserved demo_ops demo_disk Hd)
    as (Hinv & Hinstall & Huninstall).
  split; [exact Hd|]. split; [exact Hinv|]. split.
  - destruct (Hinstall demo_manager "t1" "demo" "new text"
                (mkInstallOptions true demo_source) demo_entry)
      as (Hlen & Hcount & _); [apply list_elem_of_here|reflexivity..|].
    split; [exact Hlen|exact Hcount].
  - by destruct (Huninstall demo_manager "demo" eq_refl) as [Hcount _].
Defined.

(** C3 (as the code has it): when the directory of [n] exists, an install
    without force throws the conflict error and leaves the disk as it was;
    an install with force succeeds, overwrites the file [SKILL.md] of the
    directory with the given content verbatim and keeps every other file of
    the directory, leaves the other skill directories alone, and upserts the
    manifest entry of [n]: an existing entry is overwritten at its position,
    and a manifest with at most one entry of [n] has exactly one after. *)
Theorem install_over_existing (this : SkillManager) (now n c : string)
    (options : InstallOptions) (d : Disk) (dir : gmap string string) :
  skillsDir d !! n = Some dir →
  (force options = false →
     installSkill this now n c options d = (Throw (Conflict n), d))
  ∧ (force options = true →
     ∃ d', installSkill this now n c options d = (Ok (getSkillPath this n), d')
       ∧ skillsDir d' !! n = Some (<["SKILL.md" := c]> dir)
       ∧ (∀ n', n' ≠ n → skillsDir d' !! n' = skillsDir d !! n')
       ∧ ((count_name n (manifest_of d) ≤ 1)%nat →
          count_name n (manifest_of d') = 1%nat)
       ∧ (∀ e, e ∈ skills (manifest_of d) → name e = n →
          ∃ i e0, skills (manifest_of d) !! i = Some e0 ∧ name e0 = n
                  ∧ skills (manifest_of d')
                    = <[i := new_entry this now n (opt_source options)]>
                        (skills (manifest_of d)))).
Proof.
  intros Hdir. rewrite installSkill_run, Hdir.
  rewrite (bool_decide_eq_true_2 (is_Some (Some dir))) by eauto.
  split; intros ->; simpl; [done|].
  eexists. split; [reflexivity|]. simpl.
  split; [by rewrite lookup_insert_eq|].
  split; [by intros n' Hn'; rewrite lookup_insert_ne|].
  split.
  - rewrite !count_name_names. simpl. rewrite upserted_names.
    case_bool_decide as Hin.
    + intros Hle. pose proof (count_present n _ Hin). lia.
    + intros _. rewrite filter_app, length_app, (count_absent n _ Hin).
      rewrite filter_cons. by destruct (decide (n = n)).
  - intros e He Hn.
    destruct (upserted_found this now n (opt_source options) _ e He Hn)
      as (i & e0 & Hi & Hn0 & _ & Heq).
    by exists i, e0.
Qed.

Lemma install_over_existing_witness :
  skillsDir demo_disk !! "demo" = Some demo_dir
  ∧ installSkill demo_manager "t1" "demo" "new text"
      (mkInstallOptions false demo_source) demo_disk
    = (Throw (Conflict "demo"), demo_disk)
  ∧ ∃ d', installSkill demo_manager "t1" "demo" "new text"
            (mkInstallOptions true demo_source) demo_disk
          = (Ok "skills/demo", d')
      ∧ skillsDir d' !! "demo" = Some (<["SKILL.md" := "new text"]> demo_dir)
      ∧ count_name "demo" (manifest_of d') = 1%nat.
Proof.
  assert (Hdir : skillsDir demo_disk !! "demo" = Some demo_dir) by reflexivity.
  split; [exact Hdir|]. split.
  - exact (proj1 (install_over_existing demo_manager "t1" "demo" "new text"
                    (mkInstallOptions false demo_source) demo_disk demo_dir Hdir)
                 eq_refl).
  - destruct (proj2 (install_over_existing demo_manager "t1" "demo" "new text"
                       (mkInstallOptions true demo_source) demo_disk demo_dir Hdir)
                    eq_refl)
      as (d' & Hrun & Hfile & _ & Hcount & _).
    exists d'. split; [exact Hrun|]. split; [exact Hfile|].
    apply Hcount. reflexivity.
Defined.

(** C3 (counterexample to the specification): a forced install does not
    replace the
    content of the directory; a file that was there besides [SKILL.md]
    is still there afterwards. *)
Lemma forced_install_keeps_other_files :
  let d' := (installSkill demo_manager "t1" "demo" "new text"
               (mkInstallOptions true demo_source) demo_disk).2 in
  skillsDir d' !! "demo" ≫= (.!! "references/guide.md") = Some "a guide"
  ∧ skillsDir d' !! "demo" ≠ Some {[ "SKILL.md" := "new text" ]}.
Proof.
  assert (H : skillsDir (installSkill demo_manager "t1" "demo" "new text"
               (mkInstallOptions true demo_source) demo_disk).2 !! "demo"
              = Some (<["SKILL.md" := "new text"]> demo_dir)).
  { rewrite installSkill_run. simpl. rewrite lookup_insert_eq.
    unfold demo_disk. simpl. by rewrite lookup_singleton_eq. }
  simpl. rewrite H. split; [reflexivity|].
  intros Heq.
  apply (f_equal (λ o : option (gmap string string),
                    o ≫= (.!! "references/guide.md"))) in Heq.
  vm_compute in Heq. discriminate.
Qed.

(** C5: for a name that is a plain path segment, so that its directory is
    the entry of that name under the skills root: uninstalling a name whose
    directory is missing throws the not-found error and changes nothing;
    otherwise the directory is removed with all it holds, a readable
    manifest is rewritten without the entries of that name, and a missing or
    unreadable lock file is left as it is, the call succeeding all the
    same. *)
Theorem uninstall_behaviour (this : SkillManager) (n : string) (d : Disk) :
  plain_segment n = true →
  (skillsDir d !! n = None →
     uninstallSkill this n d = (Throw (NotFound n), d))
  ∧ (is_Some (skillsDir d !! n) →
     ∃ d', uninstallSkill this n d = (Ok (), d')
       ∧ skillsDir d' = delete n (skillsDir d)
       ∧ skillsDir d' !! n = None
       ∧ (∀ m, lockFile d = Json m →
            lockFile d' = Json {| manifest_version := manifest_version m;
                                  skills := filter (λ s, name s ≠ n) (skills m) |})
       ∧ (lockFile d = Absent → lockFile d' = Absent)
       ∧ (∀ raw, lockFile d = Unparsable raw → lockFile d' = Unparsable raw)).
Proof.
  intros _. rewrite uninstallSkill_run. split.
  - intros ->. rewrite bool_decide_eq_false_2; [done|]. by intros [? ?].
  - intros Hs. rewrite bool_decide_eq_true_2 by done.
    eexists. split; [reflexivity|]. simpl.
    split; [done|]. split; [apply lookup_delete_eq|].
    repeat split; [intros m ->|intros ->|intros raw ->]; done.
Qed.

Lemma uninstall_behaviour_witness :
  uninstallSkill demo_manager "ghost" demo_disk
  = (Throw (NotFound "ghost"), demo_disk)
  ∧ ∃ d', uninstallSkill demo_manager "demo" demo_disk = (Ok (), d')
      ∧ skillsDir d' !! "demo" = None
      ∧ lockFile d' = Json {| manifest_version := 1; skills := [] |}.
Proof.
  split.
  - exact (proj1 (uninstall_behaviour demo_manager "ghost" demo_disk eq_refl)
             eq_refl).
  - destruct (proj2 (uninstall_behaviour demo_manager "demo" demo_disk eq_refl))
      as (d' & Hrun & _ & Hgone & Hjson & _); [by eexists|].
    exists d'. split; [exact Hrun|]. split; [exact Hgone|].
    by rewrite (Hjson _ eq_refl).
Defined.

(** C10: the conflict check of [installSkill] tests the directory and
    [skillExists] tests the file [SKILL.md] inside it: an install without
    force throws the conflict error whenever the directory exists;
    [skillExists] answers true exactly when the directory exists and holds
    [SKILL.md]; and on a disk where the directory exists without the file, a
    non-forced install throws the conflict error although [skillExists]
    answers false. *)
Theorem conflict_check_is_not_skillExists :
  (∀ this now n c options d,
     is_Some (skillsDir d !! n) → force options = false →
     installSkill this now n c options d = (Throw (Conflict n), d))
  ∧ (∀ this n d,
       skillExists this n d = (Ok true, d) ↔
       ∃ dir, skillsDir d !! n = Some dir ∧ is_Some (dir !! "SKILL.md"))
  ∧ (installSkill demo_manager "t0" "demo" "text"
       (mkInstallOptions false demo_source) half_written_disk
     = (Throw (Conflict "demo"), half_written_disk)
     ∧ skillExists demo_manager "demo" half_written_disk
       = (Ok false, half_written_disk)).
Proof.
  split; [|split].
  - intros this now n c options d Hs Hf. rewrite installSkill_run, Hf.
    by rewrite bool_decide_eq_true_2.
  - intros this n d. unfold skillExists, pathExists_skillMd. split.
    + intros [= H%bool_decide_eq_true_1].
      destruct (skillsDir d !! n) as [dir|]; simpl in H; [eauto|].
      by destruct H.
    + intros (dir & -> & Hf). simpl. by rewrite bool_decide_eq_true_2.
  - split; reflexivity.
Qed.

Lemma conflict_check_is_not_skillExists_witness :
  is_Some (skillsDir half_written_disk !! "demo")
  ∧ installSkill demo_manager "t0" "demo" "text"
      (mkInstallOptions false demo_source) half_written_disk
    = (Throw (Conflict "demo"), half_written_disk)
  ∧ ¬ (skillExists demo_manager "demo" half_written_disk
       = (Ok true, half_written_disk)).
Proof.
  assert (Hs : is_Some (skillsDir half_written_disk !! "demo")) by by eexists.
  destruct conflict_check_is_not_skillExists as (Hconflict & Hexists & _).
  split; [exact Hs|]. split.
  - exact (Hconflict demo_manager "t0" "demo" "text"
             (mkInstallOptions false demo_source) half_written_disk Hs eq_refl).
  - intros H. apply Hexists in H as (dir & Hdir & Hfile).
    vm_compute in Hdir. injection Hdir as <-. by destruct Hfile.
Defined.

(** ** The registry fetcher *)

Import Registry.

Lemma find_first {A : Type} (p : A → bool) (pre post : list A) (w : A) :
  Forall (λ x, p x = false) pre → p w = true →
  List.find p (pre ++ w :: post) = Some w.
Proof.
  induction 1 as [|x pre Hx _ IH]; simpl; intros Hw.
  - by rewrite Hw.
  - rewrite Hx. by apply IH.
Qed.

Lemma find_none {A : Type} (p : A → bool) (l : list A) :
  Forall (λ x, p x = false) l → List.find p l = None.
Proof. induction 1 as [|x l Hx _ IH]; simpl; [done|]. by rewrite Hx. Qed.

Lemma fetch_after_download (client : ApiClient) (w : WorkflowSearchResult) :
  bindF (call (Download (id w)) (downloadWorkflow client (id w)))
        (λ c, pure {| Registry.name := name_of c (title w);
                      content := c; workflowId := id w |})
  = ([Download (id w)], downloaded client w).
Proof.
  unfold bindF, call, pure, downloaded.
  by destruct (downloadWorkflow client (id w)).
Qed.

(** The fetcher on a search with at least one result. *)
Lemma fetchFromRegistry_search (client : ApiClient) (term : string)
    (resp : WorkflowListResponse) (first : WorkflowSearchResult)
    (ws : list WorkflowSearchResult) :
  Resolver.UUID_PATTERN_test term = false →
  searchWorkflows client term 5 = Ok resp →
  workflows resp = first :: ws →
  fetchFromRegistry client term
  = (Search term 5 ::
       (if negb (bool_decide (is_Some (List.find (exact term) (first :: ws))))
           && (1 <? length (first :: ws))%nat
        then [Warn (multiple_message
                      (title (default first (List.find (exact term) (first :: ws)))));
              Dim use_id_message]
        else [])
       ++ [Download (id (default first (List.find (exact term) (first :: ws))))],
     downloaded client (default first (List.find (exact term) (first :: ws)))).
Proof.
  intros Hu Hs Hws. unfold fetchFromRegistry. rewrite Hu, Hs.
  unfold bindF at 1, call at 1. rewrite Hws. cbv zeta.
  set (sel := default first (List.find (exact term) (first :: ws))).
  unfold bindF at 1. rewrite fetch_after_download.
  by destruct (negb _ && _).
Qed.

Lemma fetchFromRegistry_searches (client : ApiClient) (term : string) :
  Resolver.UUID_PATTERN_test term = false →
  filter (λ ev, is_Search ev = true) (fetchFromRegistry client term).1
  = [Search term 5].
Proof.
  intros Hu.
  destruct (searchWorkflows client term 5) as [resp|e] eqn:Es.
  - destruct (workflows resp) as [|first ws] eqn:Ews.
    + unfold fetchFromRegistry. rewrite Hu, Es. unfold bindF, call.
      by rewrite Ews.
    + rewrite (fetchFromRegistry_search client term resp first ws) by done.
      simpl. by destruct (negb _ && _).
  - unfold fetchFromRegistry. by rewrite Hu, Es.
Qed.

(** C8 (as the code has it): for a term that is no UUID the fetcher runs
    one search, with the limit 5. When the search answers with no result it
    throws the not-found error; otherwise it selects the first result whose
    title equals the term ignoring case or whose slug equals the term as it
    is written, and failing that the first result, with the two lines of the
    ambiguity warning when there was more than one result; it then downloads
    by the id of the selected result, and the warning does not change the
    outcome. *)
Theorem registry_search_fetch (client : ApiClient) (term : string) :
  Resolver.UUID_PATTERN_test term = false →
  filter (λ ev, is_Search ev = true) (fetchFromRegistry client term).1
    = [Search term 5]
  ∧ ∀ resp, searchWorkflows client term 5 = Ok resp →
    (workflows resp = [] →
       fetchFromRegistry client term
       = ([Search term 5], Throw (Error (no_skill_message term))))
    ∧ (∀ pre w post,
         workflows resp = pre ++ w :: post →
         Forall (λ x, exact term x = false) pre → exact term w = true →
         fetchFromRegistry client term
         = ([Search term 5; Download (id w)], downloaded client w))
    ∧ (∀ w rest,
         workflows resp = w :: rest →
         Forall (λ x, exact term x = false) (w :: rest) →
         fetchFromRegistry client term
         = (Search term 5 ::
              match rest with
              | [] => []
              | _ :: _ => [Warn (multiple_message (title w)); Dim use_id_message]
              end ++ [Download (id w)],
            downloaded client w)).
Proof.
  intros Hu. split; [by apply fetchFromRegistry_searches|].
  intros resp Hs. split; [|split].
  - intros Hnil. unfold fetchFromRegistry. rewrite Hu, Hs.
    unfold bindF, call. by rewrite Hnil.
  - intros pre w post Hws Hpre Hw.
    destruct (workflows resp) as [|first ws] eqn:Ews; [by destruct pre|].
    rewrite (fetchFromRegistry_search client term resp first ws) by done.
    rewrite Hws, (find_first _ pre post w Hpre Hw). reflexivity.
  - intros w rest Hws Hall.
    rewrite (fetchFromRegistry_search client term resp w rest) by done.
    rewrite (find_none _ _ Hall). by destruct rest.
Qed.

Lemma registry_search_fetch_witness :
  Resolver.UUID_PATTERN_test "baz" = false
  ∧ fetchFromRegistry demo_client "baz"
    = ([Search "baz" 5; Download "2"],
       Ok {| Registry.name := "skill-2"; content := "name: skill-2";
             workflowId := "2" |})
  ∧ fetchFromRegistry demo_client "nothing"
    = ([Search "nothing" 5; Warn (multiple_message "Bar"); Dim use_id_message;
        Download "1"],
       Ok {| Registry.name := "skill-1"; content := "name: skill-1";
             workflowId := "1" |}).
Proof.
  split; [reflexivity|]. split.
  - destruct (registry_search_fetch demo_client "baz" eq_refl) as [_ H].
    destruct (H _ eq_refl) as (_ & Hexact & _).
    apply (Hexact [mkWorkflow "1" "Bar" "bar" "first"]
                  (mkWorkflow "2" "Baz" "foo" "second") []);
      [reflexivity|by repeat constructor|reflexivity].
  - destruct (registry_search_fetch demo_client "nothing" eq_refl) as [_ H].
    destruct (H _ eq_refl) as (_ & _ & Hfirst).
    apply (Hfirst (mkWorkflow "1" "Bar" "bar" "first")
                  [mkWorkflow "2" "Baz" "foo" "second"]);
      [reflexivity|by repeat constructor].
Defined.

(** C8 (counterexample to the specification): the second result has a slug
    that equals
    the term [Foo] when case is ignored, yet the fetcher takes the first
    result and prints the ambiguity warning: the slug is compared as it is
    written. *)
Lemma slug_match_is_case_sensitive :
  JS.toLowerCase (slug (mkWorkflow "2" "Baz" "foo" "second")) = JS.toLowerCase "Foo"
  ∧ fetchFromRegistry demo_client "Foo"
    = ([Search "Foo" 5; Warn (multiple_message "Bar"); Dim use_id_message;
        Download "1"],
       Ok {| Registry.name := "skill-1"; content := "name: skill-1";
             workflowId := "1" |}).
Proof. split; reflexivity. Qed.

(** ** Skill documents *)

Import Parser.

(** C4 (the code departs from the specification): the schema accepts a
    header with
    [license], [author], [keywords] and [repository] and keeps their values,
    but [generateSkillMd] writes none of the four: the generated text is the
    same whatever their values, and for the parsed demo header it is the text
    with the other fields only. *)
Theorem generateSkillMd_drops_metadata
    (is_email is_url : string → bool) (f : SkillFrontmatter) (body : string)
    (l : option string) (a : option Author) (k : option (list string))
    (r : option string) :
  SkillFrontmatterSchema_parse is_email is_url demo_data = Ok demo_header
  ∧ generateSkillMd (partial demo_header) "Body" = demo_generated
  ∧ generateSkillMd (partial (with_metadata f l a k r)) body
    = generateSkillMd (partial f) body.
Proof. repeat split. Qed.

(** C9 (the code departs from the specification): [parse] checks the header
    against
    [SkillFrontmatterSchema] only; whenever the header is valid and the text
    after it is empty or white space, [parse] returns a skill whose content
    is the empty string. *)
Theorem parse_accepts_empty_body
    (is_email is_url : string → bool)
    (matter : string → result (JSValue * string))
    (basePath doc : string) (data : JSValue) (body : string)
    (f : SkillFrontmatter) :
  matter doc = Ok (data, body) →
  SkillFrontmatterSchema_parse is_email is_url data = Ok f →
  JS.trim body = EmptyString →
  parse is_email is_url matter basePath doc
  = Ok {| frontmatter := f; content := EmptyString; path := basePath |}.
Proof.
  intros Hm Hf Ht. unfold parse. rewrite Hm. simpl. rewrite Hf. simpl.
  by rewrite Ht.
Qed.

Lemma parse_accepts_empty_body_witness :
  parse (λ _, true) (λ _, true) demo_matter "skills/demo" demo_doc
  = Ok {| frontmatter := bare_header; content := EmptyString;
          path := "skills/demo" |}.
Proof.
  apply (parse_accepts_empty_body (λ _, true) (λ _, true) demo_matter
           "skills/demo" demo_doc bare_data EmptyString bare_header);
    reflexivity.
Defined.

(** * Further properties of the code *)

(** ** Strings *)

Lemma split_nonempty (sep : ascii) (s : string) :
  ∃ h t, JS.split sep s = h :: t.
Proof.
  induction s as [|c s (h & t & IH)]; simpl; [eauto|].
  destruct (Ascii.eqb c sep); [eauto|]. rewrite IH. eauto.
Qed.

(** Joining what was split gives the string back. *)
Lemma join_split (sep : ascii) (s : string) :
  JS.join (String sep EmptyString) (JS.split sep s) = s.
Proof.
  induction s as [|c s IH]; [done|]. simpl.
  destruct (split_nonempty sep s) as (h & t & Hs). rewrite Hs in IH |- *.
  destruct (Ascii.eqb c sep) eqn:E.
  - apply Ascii.eqb_eq in E as ->.
    change (JS.join (String sep EmptyString) (EmptyString :: h :: t))
      with (EmptyString +:+ String sep EmptyString
            +:+ JS.join (String sep EmptyString) (h :: t)).
    by rewrite IH.
  - destruct t as [|x t]; [simpl in *; congruence|].
    change (JS.join (String sep EmptyString) (String c h :: x :: t))
      with (String c (h +:+ String sep EmptyString
                      +:+ JS.join (String sep EmptyString) (x :: t))).
    f_equal. exact IH.
Qed.

(** The first part of a split holds no separator. *)
Lemma split_head_no_sep (sep : ascii) (s h : string) (t : list string) :
  JS.split sep s = h :: t → JS.includes h (String sep EmptyString) = false.
Proof.
  revert h t. induction s as [|c s IH]; simpl; intros h t.
  - by intros [= <- <-].
  - destruct (Ascii.eqb c sep) eqn:E; [by intros [= <- <-]|].
    destruct (split_nonempty sep s) as (h' & t' & Hs). rewrite Hs.
    intros [= <- <-]. simpl. rewrite Ascii.eqb_sym, E. simpl.
    by apply (IH h' t').
Qed.

Lemma includes_app_r (a b p : string) :
  JS.includes b p = true → JS.includes (a +:+ b) p = true.
Proof.
  intros H. induction a as [|c a IH]; [done|].
  rewrite app_cons. simpl. rewrite IH. apply orb_true_r.
Qed.

Lemma app_char (c : ascii) (b : string) :
  String c EmptyString +:+ b = String c b.
Proof. reflexivity. Qed.

Lemma includes_char_app (c : ascii) (a b : string) :
  JS.includes (a +:+ b) (String c EmptyString)
  = JS.includes a (String c EmptyString) || JS.includes b (String c EmptyString).
Proof.
  induction a as [|d a IH].
  - rewrite app_empty. by destruct b.
  - rewrite app_cons. simpl. rewrite IH.
    destruct (Ascii.eqb c d); simpl; [done|].
    by destruct (JS.includes a _).
Qed.

Lemma includes_char_cons (c d : ascii) (b : string) :
  JS.includes (String d b) (String c EmptyString)
  = Ascii.eqb c d || JS.includes b (String c EmptyString).
Proof. simpl. by destruct (Ascii.eqb c d). Qed.

Lemma startsWith_first (s p : string) (c : ascii) :
  JS.startsWith s (String c p) = true → ∃ s', s = String c s'.
Proof.
  destruct s as [|d s]; simpl; [done|].
  destruct (Ascii.eqb c d) eqn:E; [|done].
  apply Ascii.eqb_eq in E as ->. eauto.
Qed.

Lemma truthy_app_char (a b : string) (c : ascii) :
  JS.truthy (a +:+ String c b) = true.
Proof. by destruct a. Qed.

(** ** The other rules of the resolver *)

(** X1: with the [github:] prefix, a ref after the at sign and a path after
    the repo segment are both kept: [github:o/r@ref/sub] resolves to owner
    [o], repo [r], that ref and the whole of [sub] as subpath, and
    [github:o/r/sub] to the same without a ref. *)
Theorem github_prefix_ref_and_subpath
    (uas : string → string → option string) (o r rf sub : string) :
  JS.includes o "/" = false →
  JS.includes r "/" = false → JS.includes r "@" = false →
  JS.includes rf "/" = false → JS.includes rf "@" = false →
  sub ≠ EmptyString →
  Resolver.parseSkillSpecifier uas
    ("github:" +:+ o +:+ "/" +:+ r +:+ "@" +:+ rf +:+ "/" +:+ sub)
  = Ok (Resolver.hosted_ref o r (Some rf) (Some sub))
  ∧ Resolver.parseSkillSpecifier uas
      ("github:" +:+ o +:+ "/" +:+ r +:+ "/" +:+ sub)
    = Ok (Resolver.hosted_ref o r None (Some sub)).
Proof.
  intros Ho Hr Hrat Hf Hfat Hsub.
  assert (Hjoin : JS.or_undefined (JS.join "/" (JS.split "/" sub)) = Some sub).
  { rewrite (join_split "/"%char). by destruct sub. }
  split.
  - unfold Resolver.parseSkillSpecifier. rewrite startsWith_app.
    change 7%nat with (JS.length "github:"). rewrite slice_app.
    rewrite !app_char.
    rewrite (split_app_sep "/"%char o _ Ho).
    assert (Hseg : JS.includes (r +:+ String "@" rf) "/" = false)
      by (rewrite includes_char_app, includes_char_cons, Hr, Hf; done).
    replace (r +:+ String "@" (rf +:+ String "/" sub))
      with ((r +:+ String "@" rf) +:+ String "/" sub)
      by (clear; induction r as [|c r IH]; [done|]; by rewrite !app_cons, IH).
    rewrite (split_app_sep "/"%char _ sub Hseg).
    simpl. rewrite Ho. simpl.
    assert (JS.or_else (JS.or_else (Some (r +:+ String "@" rf))
                                   (Some (r +:+ String "@" rf)))
                       (Some EmptyString)
            = Some (r +:+ String "@" rf)) as ->
      by (unfold JS.or_else, JS.truthy_opt; by rewrite !truthy_app_char).
    assert (Hat : JS.includes (r +:+ String "@" rf) "@" = true)
      by (rewrite includes_char_app, includes_char_cons; simpl;
          by rewrite orb_true_r).
    simpl. rewrite Hat. unfold Resolver.split_at.
    rewrite (split_app_sep "@"%char r rf Hrat), (split_no_sep "@"%char rf Hfat).
    simpl. by rewrite Hjoin.
  - unfold Resolver.parseSkillSpecifier. rewrite startsWith_app.
    change 7%nat with (JS.length "github:"). rewrite slice_app.
    rewrite !app_char.
    rewrite (split_app_sep "/"%char o _ Ho), (split_app_sep "/"%char r sub Hr).
    simpl. rewrite Ho. simpl.
    assert (JS.or_else (JS.or_else (Some r) (Some r)) (Some EmptyString) = Some r)
      as -> by by destruct r.
    simpl. rewrite Hrat. by rewrite Hjoin.
Qed.

Lemma github_prefix_ref_and_subpath_witness :
  Resolver.parseSkillSpecifier Resolver.simple_after_scheme
    ("github:" +:+ "acme" +:+ "/" +:+ "widgets" +:+ "@" +:+ "v2" +:+ "/"
     +:+ "tools/lint")
  = Ok (Resolver.hosted_ref "acme" "widgets" (Some "v2") (Some "tools/lint"))
  ∧ Resolver.parseSkillSpecifier Resolver.simple_after_scheme
      ("github:" +:+ "acme" +:+ "/" +:+ "widgets" +:+ "/" +:+ "tools/lint")
    = Ok (Resolver.hosted_ref "acme" "widgets" None (Some "tools/lint")).
Proof.
  apply (github_prefix_ref_and_subpath Resolver.simple_after_scheme
           "acme" "widgets" "v2" "tools/lint"); done.
Defined.

(** X2: the prefix rule comes first: whatever follows [github:], also the
    host token or a URL, the resolver returns the hosted-ref variant and
    takes the text up to the first slash as owner; it never reaches the URL
    constructor. *)
Theorem github_prefix_takes_precedence
    (uas : string → string → option string) (rest : string) :
  ∃ p, Resolver.parseSkillSpecifier uas ("github:" +:+ rest) = Ok p
       ∧ Resolver.type p = Resolver.github
       ∧ ∀ h t, JS.split "/" rest = h :: t → Resolver.owner p = Some h.
Proof.
  unfold Resolver.parseSkillSpecifier. rewrite startsWith_app.
  change 7%nat with (JS.length "github:"). rewrite slice_app.
  destruct (split_nonempty "/"%char rest) as (h & t & Hs). rewrite Hs.
  simpl. rewrite (split_head_no_sep "/"%char rest h t Hs).
  destruct (JS.includes _ "@");
    (eexists; split; [reflexivity|]; split; [reflexivity|];
     by intros h' t' [= <- <-]).
Qed.

(** X3: the two kinds that cannot be installed yet, for a specifier that
    does not hold the host token: one that starts with [http://] or
    [https://] resolves to the url variant with the specifier unchanged (the
    URL constructor is not called on it), and one that starts with [./], [/]
    or [../] resolves to the local variant with the specifier as path. *)
Theorem url_and_local_resolution
    (uas : string → string → option string) (s : string) :
  JS.includes s "github.com" = false →
  (JS.startsWith s "http://" || JS.startsWith s "https://" = true →
   Resolver.parseSkillSpecifier uas s = Ok (Resolver.url_ref s))
  ∧ (JS.startsWith s "./" || JS.startsWith s "/" || JS.startsWith s "../" = true →
     Resolver.parseSkillSpecifier uas s = Ok (Resolver.local_ref s)).
Proof.
  intros Hh. split.
  - intros Hu. unfold Resolver.parseSkillSpecifier. rewrite Hh, Hu.
    assert (Hc : ∃ s', s = String "h" s').
    { apply orb_prop in Hu as [Hu|Hu]; by apply startsWith_first in Hu. }
    destruct Hc as [s' ->]. reflexivity.
  - intros Hl. unfold Resolver.parseSkillSpecifier. rewrite Hh, Hl.
    assert (Hc : ∃ s', s = String "." s' ∨ s = String "/" s').
    { apply orb_prop in Hl as [Hl|Hl]; [apply orb_prop in Hl as [Hl|Hl]|];
        apply startsWith_first in Hl as [s' ->]; eauto. }
    destruct Hc as [s' [-> | ->]]; reflexivity.
Qed.

Lemma url_and_local_resolution_witness :
  Resolver.parseSkillSpecifier Resolver.simple_after_scheme
    "https://example.org/skills/demo"
  = Ok (Resolver.url_ref "https://example.org/skills/demo")
  ∧ Resolver.parseSkillSpecifier Resolver.simple_after_scheme "./local/my-skill"
    = Ok (Resolver.local_ref "./local/my-skill").
Proof.
  split.
  - apply (proj1 (url_and_local_resolution Resolver.simple_after_scheme
                    "https://example.org/skills/demo" eq_refl)).
    reflexivity.
  - apply (proj2 (url_and_local_resolution Resolver.simple_after_scheme
                    "./local/my-skill" eq_refl)).
    reflexivity.
Defined.

Lemma earlier_rules_miss_elim (s : string) :
  Resolver.earlier_rules_miss s = true →
  JS.startsWith s "github:" = false ∧ JS.includes s "github.com" = false
  ∧ JS.startsWith s "http://" || JS.startsWith s "https://" = false
  ∧ JS.startsWith s "./" || JS.startsWith s "/" || JS.startsWith s "../" = false.
Proof.
  unfold Resolver.earlier_rules_miss.
  intros [[[H1 H2]%andb_prop H3]%andb_prop H4]%andb_prop.
  by repeat split; apply negb_true_iff.
Qed.

(** X4: the shorthand rule, for a specifier the earlier rules miss:
    [o/r@ref] resolves to owner [o], repo [r] and that ref; and in [o/r/sub]
    everything after the repo segment is dropped, so the result has no
    subpath (unlike the same text after the [github:] prefix). *)
Theorem shorthand_resolution
    (uas : string → string → option string) (o r : string) :
  JS.includes o "/" = false →
  JS.includes r "/" = false → JS.includes r "@" = false →
  (∀ rf, JS.includes rf "/" = false → JS.includes rf "@" = false →
     Resolver.earlier_rules_miss (o +:+ "/" +:+ r +:+ "@" +:+ rf) = true →
     Resolver.parseSkillSpecifier uas (o +:+ "/" +:+ r +:+ "@" +:+ rf)
     = Ok (Resolver.hosted_ref o r (Some rf) None))
  ∧ (∀ sub,
     Resolver.earlier_rules_miss (o +:+ "/" +:+ r +:+ "/" +:+ sub) = true →
     Resolver.parseSkillSpecifier uas (o +:+ "/" +:+ r +:+ "/" +:+ sub)
     = Ok (Resolver.hosted_ref o r None None)).
Proof.
  intros Ho Hr Hrat. split.
  - intros rf Hf Hfat (H1 & H2 & H3 & H4)%earlier_rules_miss_elim.
    unfold Resolver.parseSkillSpecifier. rewrite H1, H2, H3, H4.
    rewrite !app_char in *.
    assert (Hseg : JS.includes (r +:+ String "@" rf) "/" = false)
      by (rewrite includes_char_app, includes_char_cons, Hr, Hf; done).
    rewrite (includes_app_r o (String "/" (r +:+ String "@" rf)) "/")
      by (simpl; done).
    rewrite (split_app_sep "/"%char o _ Ho), (split_no_sep "/"%char _ Hseg).
    simpl.
    assert (Hat : JS.includes (r +:+ String "@" rf) "@" = true)
      by (rewrite includes_char_app, includes_char_cons; simpl;
          by rewrite orb_true_r).
    rewrite Hat. unfold Resolver.split_at.
    by rewrite (split_app_sep "@"%char r rf Hrat), (split_no_sep "@"%char rf Hfat).
  - intros sub (H1 & H2 & H3 & H4)%earlier_rules_miss_elim.
    unfold Resolver.parseSkillSpecifier. rewrite H1, H2, H3, H4.
    rewrite !app_char in *.
    rewrite (includes_app_r o (String "/" (r +:+ String "/" sub)) "/")
      by (simpl; done).
    rewrite (split_app_sep "/"%char o _ Ho), (split_app_sep "/"%char r sub Hr).
    simpl. by rewrite Hrat.
Qed.

Lemma shorthand_resolution_witness :
  Resolver.parseSkillSpecifier Resolver.simple_after_scheme
    ("acme" +:+ "/" +:+ "widgets" +:+ "@" +:+ "v2")
  = Ok (Resolver.hosted_ref "acme" "widgets" (Some "v2") None)
  ∧ Resolver.parseSkillSpecifier Resolver.simple_after_scheme
      ("acme" +:+ "/" +:+ "widgets" +:+ "/" +:+ "tools/lint")
    = Ok (Resolver.hosted_ref "acme" "widgets" None None).
Proof.
  destruct (shorthand_resolution Resolver.simple_after_scheme "acme" "widgets")
    as [Href Hsub]; [reflexivity..|].
  split; [apply Href; reflexivity|apply Hsub; reflexivity].
Defined.

(** A string holds every code unit of a prefix of it. *)
Lemma startsWith_includes_char (p s : string) (c : ascii) :
  JS.startsWith s p = true →
  JS.includes p (String c EmptyString) = true →
  JS.includes s (String c EmptyString) = true.
Proof.
  revert s. induction p as [|d p IH]; intros s Hp Hc; [done|].
  destruct (startsWith_first s p d Hp) as [s' ->].
  simpl in Hp. rewrite Ascii.eqb_refl in Hp. simpl in Hp.
  rewrite includes_char_cons in Hc |- *.
  destruct (Ascii.eqb c d); [done|]. simpl in *. by apply IH.
Qed.

Lemma no_slash_no_prefix (s p : string) :
  JS.includes s "/" = false → JS.includes p "/" = true →
  JS.startsWith s p = false.
Proof.
  intros Hs Hp. destruct (JS.startsWith s p) eqn:E; [|done].
  by rewrite (startsWith_includes_char p s "/" E Hp) in Hs.
Qed.

(** X5: a specifier without a slash, without the host token and without the
    [github:] prefix is a registry term, kept as it is written, whether it
    has the shape of a UUID or not. *)
Theorem registry_term_resolution
    (uas : string → string → option string) (s : string) :
  JS.includes s "/" = false →
  JS.includes s "github.com" = false →
  JS.startsWith s "github:" = false →
  Resolver.parseSkillSpecifier uas s = Ok (Resolver.registry_ref s).
Proof.
  intros Hs Hh Hg. unfold Resolver.parseSkillSpecifier. rewrite Hg, Hh.
  rewrite !(no_slash_no_prefix s _ Hs) by done.
  rewrite Hs. simpl. by case_match.
Qed.

Lemma registry_term_resolution_witness :
  Resolver.parseSkillSpecifier Resolver.simple_after_scheme "weather-report"
  = Ok (Resolver.registry_ref "weather-report").
Proof.
  apply (registry_term_resolution Resolver.simple_after_scheme "weather-report");
    reflexivity.
Defined.

Lemma split_lookup_0 (sep : ascii) (s : string) :
  is_Some (JS.split sep s !! 0%nat).
Proof. destruct (split_nonempty sep s) as (h & t & ->). by eexists. Qed.

Lemma well_formed_github (s : string) (p : Resolver.ParsedSource) :
  Resolver.type p = Resolver.github ∧ is_Some (Resolver.owner p)
  ∧ Resolver.url_ p = None ∧ Resolver.localPath p = None
  ∧ Resolver.registryId p = None →
  Resolver.well_formed s p.
Proof. unfold Resolver.well_formed. by intros [-> ?]. Qed.

(** X6: the resolver returns for every specifier without the host token,
    and whatever it returns is a variant with the fields of its kind and no
    others: a hosted-ref has an owner and neither url, path nor id; the url,
    local and registry variants hold the specifier itself and nothing
    else. *)
Theorem resolver_returns_well_formed_variant
    (uas : string → string → option string) (s : string) :
  (JS.includes s "github.com" = false →
   ∃ p, Resolver.parseSkillSpecifier uas s = Ok p)
  ∧ (∀ p, Resolver.parseSkillSpecifier uas s = Ok p → Resolver.well_formed s p).
Proof.
  split; [apply parseSkillSpecifier_returns_without_host|].
  intros p. unfold Resolver.parseSkillSpecifier.
  destruct (JS.startsWith s "github:").
  { intros Hp. apply well_formed_github. revert Hp.
    repeat case_match; intros [= <-]; simpl; by eauto 10. }
  destruct (JS.includes s "github.com").
  { destruct (Resolver.URL_pathname uas s) as [pathname|e]; simpl; [|done].
    intros [= <-]. apply well_formed_github. simpl.
    repeat split. apply split_lookup_0. }
  destruct (JS.startsWith s "http://" || JS.startsWith s "https://").
  { by intros [= <-]. }
  destruct (JS.startsWith s "./" || JS.startsWith s "/" || JS.startsWith s "../").
  { by intros [= <-]. }
  destruct (JS.includes s "/").
  { intros Hp. apply well_formed_github. revert Hp.
    repeat case_match; intros [= <-]; simpl;
      (repeat split; apply split_lookup_0). }
  destruct (Resolver.UUID_PATTERN_test s); by intros [= <-].
Qed.

Lemma resolver_returns_well_formed_variant_witness :
  ∃ p, Resolver.parseSkillSpecifier Resolver.simple_after_scheme "acme/widgets"
       = Ok p ∧ Resolver.well_formed "acme/widgets" p.
Proof.
  destruct (resolver_returns_well_formed_variant Resolver.simple_after_scheme
              "acme/widgets") as [Hret Hwf].
  destruct (Hret eq_refl) as [p Hp]. exists p. split; [exact Hp|].
  apply Hwf, Hp.
Defined.

Lemma length_app_string (a b : string) :
  JS.length (a +:+ b) = (JS.length a + JS.length b)%nat.
Proof.
  induction a as [|c a IH]; [done|]. rewrite app_cons.
  unfold JS.length in *. simpl. by rewrite IH.
Qed.

Lemma take_app (a b : string) : JS.take (JS.length a) (a +:+ b) = a.
Proof.
  induction a as [|c a IH]; [by destruct b|].
  rewrite app_cons. unfold JS.length in *. simpl. by rewrite IH.
Qed.

(** A [.git] suffix is recognised and cut off. *)
Lemma endsWith_git (r : string) :
  JS.endsWith (r +:+ ".git") ".git" = true
  ∧ JS.slice_0_neg 4 (r +:+ ".git") = r.
Proof.
  unfold JS.endsWith, JS.slice_0_neg. rewrite length_app_string.
  change (JS.length ".git") with 4%nat.
  replace (JS.length r + 4 - 4)%nat with (JS.length r) by lia.
  rewrite slice_app, take_app. split; [|done].
  by destruct (Nat.leb_spec 4 (JS.length r + 4)); [|lia].
Qed.

(** X7: a URL of the hosting site, once the URL constructor has accepted it:
    with the path [/o/r.git] the repo is [r], the suffix cut off; with
    [/o/r/tree/b/sub] the ref is [b] and the subpath all of [sub]; and with
    any other third segment, as in [/o/r/blob/b/sub], there is no ref but the
    subpath is still what follows the fourth segment. *)
Theorem github_url_resolution
    (uas : string → string → option string) (s o r : string) :
  JS.startsWith s "github:" = false →
  JS.includes s "github.com" = true →
  JS.includes o "/" = false → JS.includes r "/" = false →
  (Resolver.URL_pathname uas s = Ok ("/" +:+ o +:+ "/" +:+ r +:+ ".git") →
   Resolver.parseSkillSpecifier uas s = Ok (Resolver.hosted_ref o r None None))
  ∧ (∀ seg b sub,
       JS.endsWith r ".git" = false →
       JS.includes seg "/" = false →
       JS.includes b "/" = false → b ≠ EmptyString → sub ≠ EmptyString →
       Resolver.URL_pathname uas s
       = Ok ("/" +:+ o +:+ "/" +:+ r +:+ "/" +:+ seg +:+ "/" +:+ b +:+ "/" +:+ sub) →
       Resolver.parseSkillSpecifier uas s
       = Ok (Resolver.hosted_ref o r
               (if String.eqb seg "tree" then Some b else None) (Some sub))).
Proof.
  intros Hg Hh Ho Hr. split.
  - intros Hp. unfold Resolver.parseSkillSpecifier. rewrite Hg, Hh, Hp.
    cbn [mbind result_bind]. rewrite !app_char. cbn [JS.slice].
    assert (Hrg : JS.includes (r +:+ ".git") "/" = false)
      by (rewrite includes_char_app, Hr; done).
    rewrite (split_app_sep "/"%char o _ Ho), (split_no_sep "/"%char _ Hrg).
    cbn [lookup list_lookup drop skipn].
    destruct (endsWith_git r) as [-> ->].
    by rewrite bool_decide_eq_false_2.
  - intros seg b sub Hng Hseg Hb Hbne Hsub Hp.
    unfold Resolver.parseSkillSpecifier. rewrite Hg, Hh, Hp.
    cbn [mbind result_bind]. rewrite !app_char. cbn [JS.slice].
    rewrite (split_app_sep "/"%char o _ Ho), (split_app_sep "/"%char r _ Hr),
      (split_app_sep "/"%char seg _ Hseg), (split_app_sep "/"%char b _ Hb).
    cbn [lookup list_lookup drop skipn]. rewrite Hng.
    rewrite drop_0, (join_split "/"%char sub).
    assert (JS.or_undefined sub = Some sub) as -> by by destruct sub.
    assert (JS.truthy_opt (Some b) = true) as -> by by destruct b.
    rewrite andb_true_r.
    destruct (String.eqb_spec seg "tree") as [->|Hne].
    + by rewrite bool_decide_eq_true_2.
    + rewrite bool_decide_eq_false_2; [done|congruence].
Qed.

Lemma github_url_resolution_witness :
  Resolver.parseSkillSpecifier Resolver.simple_after_scheme
    "https://github.com/acme/widgets.git"
  = Ok (Resolver.hosted_ref "acme" "widgets" None None)
  ∧ Resolver.parseSkillSpecifier Resolver.simple_after_scheme
      "https://github.com/acme/widgets/tree/v2/tools/lint"
    = Ok (Resolver.hosted_ref "acme" "widgets" (Some "v2") (Some "tools/lint"))
  ∧ Resolver.parseSkillSpecifier Resolver.simple_after_scheme
      "https://github.com/acme/widgets/blob/v2/tools/lint"
    = Ok (Resolver.hosted_ref "acme" "widgets" None (Some "tools/lint")).
Proof.
  split; [|split].
  - apply (github_url_resolution Resolver.simple_after_scheme
             "https://github.com/acme/widgets.git" "acme" "widgets");
      reflexivity.
  - refine (proj2 (github_url_resolution Resolver.simple_after_scheme
                     "https://github.com/acme/widgets/tree/v2/tools/lint"
                     "acme" "widgets" _ _ _ _) "tree" "v2" "tools/lint"
                  _ _ _ _ _ _); done.
  - refine (proj2 (github_url_resolution Resolver.simple_after_scheme
                     "https://github.com/acme/widgets/blob/v2/tools/lint"
                     "acme" "widgets" _ _ _ _) "blob" "v2" "tools/lint"
                  _ _ _ _ _ _); done.
Defined.

(** ** The fetchers *)

Lemma match_name_absent (b : bool) (s : string) :
  JS.includes s "name:" = false → match_name b s = None.
Proof.
  revert b. induction s as [|c s IH]; intros b H.
  - simpl. by rewrite andb_false_r.
  - pose proof (startsWith_includes _ _ H) as Hs.
    cbn [match_name]. rewrite Hs, andb_false_r.
    apply IH. simpl in H. by apply orb_false_elim in H as [_ H].
Qed.

(** X8: when the text [name:] occurs nowhere in a document, the name both
    fetchers give the skill is the fallback: the title of the registry
    record, or the repo of the hosted source. *)
Theorem name_falls_back_without_name_line
    (fetch : string → result GitHub.Response) (source : Resolver.ParsedSource)
    (response : GitHub.Response) (content fallback : string) :
  JS.includes content "name:" = false →
  name_of content fallback = fallback
  ∧ (fetch (GitHub.skillMdUrl source) = Ok response →
     GitHub.ok response = true → GitHub.text response = content →
     GitHub.fetchFromGitHub fetch source
     = Ok {| GitHub.name := Resolver.repo source; GitHub.content := content |}).
Proof.
  intros H. unfold name_of, GitHub.fetchFromGitHub.
  split; [by rewrite match_name_absent|].
  intros -> Hok <-. cbn [mbind result_bind]. rewrite Hok. simpl.
  by rewrite match_name_absent.
Qed.

Lemma name_falls_back_without_name_line_witness :
  name_of "# Demo" "Demo title" = "Demo title"
  ∧ GitHub.fetchFromGitHub
      (λ _, Ok (GitHub.mkResponse true 200 "OK" "# Demo"))
      (Resolver.hosted_ref "acme" "widgets" None None)
    = Ok {| GitHub.name := Some "widgets"; GitHub.content := "# Demo" |}.
Proof.
  destruct (name_falls_back_without_name_line
              (λ _, Ok (GitHub.mkResponse true 200 "OK" "# Demo"))
              (Resolver.hosted_ref "acme" "widgets" None None)
              (GitHub.mkResponse true 200 "OK" "# Demo")
              "# Demo" "Demo title" eq_refl) as [Hname Hfetch].
  split; [exact Hname|]. by apply Hfetch.
Defined.

Lemma app_assoc_string (a b c : string) :
  (a +:+ b) +:+ c = a +:+ (b +:+ c).
Proof. induction a as [|x a IH]; [done|]. by rewrite !app_cons, IH. Qed.

Lemma name_char_plain (c : ascii) :
  is_name_char c = true →
  JS.is_white c = false ∧ JS.is_line_terminator c = false.
Proof. destruct c as [[] [] [] [] [] [] [] []]; by intros H. Qed.

Lemma line_rest_app (n t : string) :
  JS.all_chars is_name_char n = true →
  line_rest (n +:+ JS.nl +:+ t) = n.
Proof.
  induction n as [|c n IH]; [done|].
  simpl. intros [Hc Hn]%andb_prop.
  destruct (name_char_plain c Hc) as [_ ->]. by rewrite IH.
Qed.

Lemma trim_name (n : string) :
  JS.all_chars is_name_char n = true → JS.trim n = n.
Proof.
  intros Hn. unfold JS.trim.
  assert (JS.trimStart n = n) as ->.
  { destruct n as [|c n]; [done|]. simpl in *.
    apply andb_prop in Hn as [Hc _]. by destruct (name_char_plain c Hc) as [-> _]. }
  induction n as [|c n IH]; [done|].
  simpl in *. apply andb_prop in Hn as [Hc Hn]. rewrite (IH Hn).
  destruct (name_char_plain c Hc) as [-> _]. by destruct n.
Qed.

(** The lines of a header, joined and followed by a line feed, start with
    the first line and a line feed. *)
Lemma join_first_line (x : string) (l : list string) (t : string) :
  ∃ t', JS.join JS.nl (x :: l) +:+ JS.nl +:+ t = x +:+ JS.nl +:+ t'.
Proof.
  destruct l as [|y l]; [by exists t|].
  exists (JS.join JS.nl (y :: l) +:+ JS.nl +:+ t).
  change (JS.join JS.nl (x :: y :: l))
    with (x +:+ JS.nl +:+ JS.join JS.nl (y :: l)).
  by rewrite !app_assoc_string.
Qed.

Lemma match_name_first_key (n t : string) :
  n ≠ EmptyString → JS.all_chars is_name_char n = true →
  match_name true ("---" +:+ JS.nl +:+ ("name: " +:+ n) +:+ JS.nl +:+ t)
  = Some n.
Proof.
  intros Hne Hn. rewrite app_assoc_string.
  destruct n as [|c n]; [done|].
  pose proof Hn as Hn'. simpl in Hn'. apply andb_prop in Hn' as [Hc _].
  destruct (name_char_plain c Hc) as [Hw _].
  pose proof (line_rest_app (String c n) t Hn) as Hl.
  vm_compute in Hl |- *. vm_compute in Hw. rewrite Hw. by rewrite Hl.
Qed.

(** X9: the fetchers read back the name that the generator writes: for a
    header whose name is non-empty and made of lower-case letters, digits
    and hyphens, the name extracted from [generateSkillMd(header, body)] is
    that name, whatever the other fields, the body and the fallback are. *)
Theorem generated_document_names_its_skill
    (f : PartialFrontmatter) (body n fallback : string) :
  p_name f = Some n →
  n ≠ EmptyString → JS.all_chars is_name_char n = true →
  name_of (generateSkillMd f body) fallback = n.
Proof.
  intros Hp Hne Hn. unfold name_of, generateSkillMd, yamlLines. rewrite Hp.
  assert (line_if_truthy "name" (Some n) = ["name: " +:+ n]) as ->
    by by destruct n.
  cbn [app].
  destruct (join_first_line ("name: " +:+ n)
              (line_if_truthy "description" (p_description f) ++
               line_if_truthy "version" (p_version f) ++
               match p_disable_model_invocation f with
               | Some b => ["disable-model-invocation: " +:+ string_of_bool b]
               | None => []
               end ++
               match p_user_invocable f with
               | Some b => ["user-invocable: " +:+ string_of_bool b]
               | None => []
               end ++
               match p_allowed_tools f with
               | Some (t :: ts) => ["allowed-tools: " +:+ JS.join ", " (t :: ts)]
               | _ => []
               end ++
               line_if_truthy "argument-hint" (p_argument_hint f) ++
               line_if_truthy "model" (p_model f) ++
               match p_context f with
               | Some c => ["context: " +:+ string_of_context c]
               | None => []
               end ++
               line_if_truthy "agent" (p_agent f))
              ("---" +:+ JS.nl +:+ JS.nl +:+ body +:+ JS.nl)) as [t' ->].
  rewrite (match_name_first_key n t' Hne Hn). by apply trim_name.
Qed.

Lemma generated_document_names_its_skill_witness :
  name_of (generateSkillMd (partial demo_header) "Body") "fallback" = "demo".
Proof.
  apply (generated_document_names_its_skill (partial demo_header) "Body"
           "demo" "fallback"); done.
Defined.

(** X10: for an id of UUID shape the registry fetcher never searches: it
    downloads by that id first and asks for the record second.  A failed
    download ends the call before the record is asked for; a failed record
    lookup fails the call although the content was downloaded; and when both
    answer, the content is returned verbatim with the id given. *)
Theorem registry_fetch_by_uuid (client : ApiClient) (i : string) :
  Resolver.UUID_PATTERN_test i = true →
  filter (λ ev, is_Search ev = true) (fetchFromRegistry client i).1 = []
  ∧ (∀ e, downloadWorkflow client i = Throw e →
       fetchFromRegistry client i = ([Download i], Throw e))
  ∧ (∀ c e, downloadWorkflow client i = Ok c → getWorkflow client i = Throw e →
       fetchFromRegistry client i = ([Download i; Get i], Throw e))
  ∧ (∀ c w, downloadWorkflow client i = Ok c → getWorkflow client i = Ok w →
       fetchFromRegistry client i
       = ([Download i; Get i],
          Ok {| Registry.name := name_of c (title w);
                Registry.content := c; workflowId := i |})).
Proof.
  intros Hu. unfold fetchFromRegistry. rewrite Hu.
  unfold bindF, call, pure.
  destruct (downloadWorkflow client i) as [c|e];
    destruct (getWorkflow client i) as [w|e']; simpl;
    repeat split; intros; simplify_eq; done.
Qed.

Lemma registry_fetch_by_uuid_witness :
  fetchFromRegistry demo_client "123e4567-e89b-12d3-a456-426614174000"
  = ([Download "123e4567-e89b-12d3-a456-426614174000";
      Get "123e4567-e89b-12d3-a456-426614174000"],
     Throw (ApiError "Not found" 404)).
Proof.
  destruct (registry_fetch_by_uuid demo_client
              "123e4567-e89b-12d3-a456-426614174000" eq_refl)
    as (_ & _ & Hget & _).
  by apply (Hget "name: skill-123e4567-e89b-12d3-a456-426614174000").
Defined.

(** X11: where a shorthand specifier is fetched from.  For [o/r] the ref is
    left undefined by the resolver and the fetcher fills in [main]; for
    [o/r@], with nothing after the at sign, the resolver yields the empty
    string as ref, which the fetcher does not replace, so the address has an
    empty segment where the branch belongs. *)
Theorem shorthand_fetch_address
    (uas : string → string → option string) (o r : string) :
  JS.includes o "/" = false →
  JS.includes r "/" = false → JS.includes r "@" = false →
  (Resolver.earlier_rules_miss (o +:+ "/" +:+ r) = true →
   ∃ p, Resolver.parseSkillSpecifier uas (o +:+ "/" +:+ r) = Ok p
        ∧ GitHub.skillMdUrl p
          = "https://raw.githubusercontent.com/" +:+ o +:+ "/" +:+ r
            +:+ "/main/SKILL.md")
  ∧ (Resolver.earlier_rules_miss (o +:+ "/" +:+ r +:+ "@") = true →
     ∃ p, Resolver.parseSkillSpecifier uas (o +:+ "/" +:+ r +:+ "@") = Ok p
          ∧ Resolver.ref p = Some EmptyString
          ∧ GitHub.skillMdUrl p
            = "https://raw.githubusercontent.com/" +:+ o +:+ "/" +:+ r
              +:+ "//SKILL.md").
Proof.
  intros Ho Hr Hrat. split.
  - intros (H1 & H2 & H3 & H4)%earlier_rules_miss_elim.
    unfold Resolver.parseSkillSpecifier. rewrite H1, H2, H3, H4.
    rewrite !app_char in *.
    rewrite (includes_app_r o (String "/" r) "/") by (simpl; done).
    rewrite (split_app_sep "/"%char o _ Ho), (split_no_sep "/"%char _ Hr).
    simpl. rewrite Hrat. eexists. split; [reflexivity|]. reflexivity.
  - intros (H1 & H2 & H3 & H4)%earlier_rules_miss_elim.
    unfold Resolver.parseSkillSpecifier. rewrite H1, H2, H3, H4.
    rewrite !app_char in *.
    assert (Hseg : JS.includes (r +:+ "@") "/" = false)
      by (rewrite includes_char_app, Hr; done).
    rewrite (includes_app_r o (String "/" (r +:+ "@")) "/") by (simpl; done).
    rewrite (split_app_sep "/"%char o _ Ho), (split_no_sep "/"%char _ Hseg).
    simpl.
    assert (Hat : JS.includes (r +:+ "@") "@" = true)
      by (rewrite includes_char_app; simpl; by rewrite orb_true_r).
    rewrite Hat. unfold Resolver.split_at.
    change (r +:+ "@") with (r +:+ String "@" EmptyString).
    rewrite (split_app_sep "@"%char r EmptyString Hrat).
    eexists. split; [reflexivity|]. split; [reflexivity|].
    reflexivity.
Qed.

Lemma shorthand_fetch_address_witness :
  ∃ p, Resolver.parseSkillSpecifier Resolver.simple_after_scheme
         ("acme" +:+ "/" +:+ "widgets" +:+ "@") = Ok p
       ∧ Resolver.ref p = Some EmptyString
       ∧ GitHub.skillMdUrl p
         = "https://raw.githubusercontent.com/" +:+ "acme" +:+ "/" +:+ "widgets"
           +:+ "//SKILL.md".
Proof.
  refine (proj2 (shorthand_fetch_address Resolver.simple_after_scheme
                   "acme" "widgets" _ _ _) _); reflexivity.
Defined.

(** ** Creating, reading and listing skills *)


(** Every name the schema accepts is a plain segment. *)
Lemma valid_name_is_plain_segment (n : string) :
  n ≠ EmptyString → JS.all_chars is_name_char n = true →
  plain_segment n = true.
Proof.
  intros Hne Hall. unfold plain_segment.
  rewrite !(all_chars_not_includes is_name_char) by done.
  destruct n as [|c n']; [done|].
  simpl in Hall. apply andb_prop in Hall as [Hc Hn'].
  assert ("."%char ≠ c) as Hdot by (intros <-; done).
  apply Ascii.eqb_neq in Hdot.
  cbn [JS.truthy String.eqb]. by rewrite Ascii.eqb_sym, Hdot.
Qed.



Section reading_properties.

Variable is_email : string → bool.
Variable is_url : string → bool.
Variable matter : string → result (JSValue * string).

Lemma getSkill_lookup (this : SkillManager) (n : string) (d : Disk) :
  getSkill is_email is_url matter this n d
  = (skillsDir d !! n ≫= (.!! "SKILL.md"))
    ≫= read_as is_email is_url matter this n.
Proof.
  unfold getSkill, parse_at, read_as.
  destruct (skillsDir d !! n) as [files|]; simpl; [|done].
  by destruct (files !! "SKILL.md").
Qed.


(** X14: for a plain segment [n], what [getSkill] returns after a successful
    install is what the installed text reads as: the skill when the text is
    a valid document and null when it is not, for [installSkill] stores the
    text without checking it; the file exists in both cases, and every
    other plain segment reads as before. *)
Theorem install_then_getSkill (this : SkillManager) (now n c : string)
    (options : InstallOptions) (d : Disk) :
  plain_segment n = true →
  force options = true ∨ skillsDir d !! n = None →
  let d' := (installSkill this now n c options d).2 in
  getSkill is_email is_url matter this n d' = read_as is_email is_url matter this n c
  ∧ skillExists this n d' = (Ok true, d')
  ∧ ∀ n', plain_segment n' = true → n' ≠ n →
      getSkill is_email is_url matter this n' d'
      = getSkill is_email is_url matter this n' d.
Proof.
  intros _ Hok. rewrite installSkill_run.
  assert (negb (force options) && bool_decide (is_Some (skillsDir d !! n)) = false)
    as ->.
  { destruct Hok as [-> | ->]; [done|].
    rewrite bool_decide_eq_false_2; [apply andb_false_r|by intros [? ?]]. }
  cbn [snd]. split; [|split].
  - rewrite getSkill_lookup. simpl. rewrite lookup_insert_eq. simpl.
    by rewrite lookup_insert_eq.
  - unfold skillExists, pathExists_skillMd. simpl. rewrite lookup_insert_eq.
    simpl. by rewrite lookup_insert_eq, bool_decide_eq_true_2.
  - intros n' _ Hne. rewrite !getSkill_lookup. simpl.
    by rewrite lookup_insert_ne.
Qed.

(** X15: for a plain segment [n], after a successful uninstall the name
    reads as null and its file does not exist, and every other plain segment
    reads as before. *)
Theorem uninstall_then_getSkill (this : SkillManager) (n : string) (d : Disk) :
  plain_segment n = true →
  is_Some (skillsDir d !! n) →
  let d' := (uninstallSkill this n d).2 in
  getSkill is_email is_url matter this n d' = None
  ∧ skillExists this n d' = (Ok false, d')
  ∧ ∀ n', plain_segment n' = true → n' ≠ n →
      getSkill is_email is_url matter this n' d'
      = getSkill is_email is_url matter this n' d.
Proof.
  intros _ Hs. rewrite uninstallSkill_run, bool_decide_eq_true_2 by done.
  cbn [snd]. split; [|split].
  - rewrite getSkill_lookup. simpl. by rewrite lookup_delete_eq.
  - unfold skillExists, pathExists_skillMd. simpl.
    by rewrite lookup_delete_eq.
  - intros n' _ Hne. rewrite !getSkill_lookup. simpl.
    by rewrite lookup_delete_ne.
Qed.

End reading_properties.


Lemma install_then_getSkill_witness :
  getSkill (λ _, true) (λ _, true) demo_matter demo_manager "demo"
    (installSkill demo_manager "t0" "demo" demo_doc
       (mkInstallOptions false demo_source) empty_disk).2
  = Some demo_info.
Proof.
  refine (eq_trans
            (proj1 (install_then_getSkill (λ _, true) (λ _, true) demo_matter
                      demo_manager "t0" "demo" demo_doc
                      (mkInstallOptions false demo_source) empty_disk
                      eq_refl _)) _).
  - by right.
  - reflexivity.
Defined.

Lemma uninstall_then_getSkill_witness :
  getSkill (λ _, true) (λ _, true) demo_matter demo_manager "demo"
    (uninstallSkill demo_manager "demo" demo_disk).2
  = None.
Proof.
  apply (proj1 (uninstall_then_getSkill (λ _, true) (λ _, true) demo_matter
                  demo_manager "demo" demo_disk eq_refl ltac:(by eexists))).
Defined.

(** ** How install and uninstall compose *)

Lemma filter_other_names (n : string) (l : list SkillManifest) :
  (∀ e, e ∈ l → Manager.name e ≠ n) →
  filter (λ s, Manager.name s ≠ n) l = l.
Proof.
  induction l as [|x l IH]; [done|]. intros H.
  rewrite filter_cons_True by (apply H; left).
  f_equal. apply IH. intros e He. apply H. by right.
Qed.

(** X16: installing a plain segment that has neither a directory nor a
    manifest entry and then uninstalling it, by a manager of the same scope,
    leads back: the skills root is as it was and the manifest reads as it
    did. *)
Theorem install_then_uninstall (this other : SkillManager) (now n c : string)
    (options : InstallOptions) (d : Disk) :
  plain_segment n = true →
  this_scope other = this_scope this →
  skillsDir d !! n = None →
  (∀ e, e ∈ skills (manifest_of d) → Manager.name e ≠ n) →
  let d1 := (installSkill this now n c options d).2 in
  let d2 := (uninstallSkill other n d1).2 in
  (uninstallSkill other n d1).1 = Ok ()
  ∧ skillsDir d2 = skillsDir d
  ∧ manifest_of d2 = manifest_of d.
Proof.
  intros _ _ Hn Hfresh. rewrite installSkill_run, Hn.
  rewrite (bool_decide_eq_false_2 (is_Some None)) by (by intros [? ?]).
  rewrite andb_false_r. cbn [snd].
  rewrite uninstallSkill_run. cbn [skillsDir lockFile].
  rewrite lookup_insert_eq, bool_decide_eq_true_2 by done.
  cbn [fst snd skillsDir lockFile]. split; [done|]. split.
  - rewrite delete_insert_eq. by apply delete_id.
  - unfold manifest_of at 1. cbn [lockFile manifest_version skills].
    rewrite upserted_fresh by done.
    rewrite filter_app, filter_other_names by done.
    rewrite filter_cons_False by (simpl; by intros H; apply H).
    rewrite filter_nil, app_nil_r. by destruct (manifest_of d).
Qed.

Lemma install_then_uninstall_witness :
  skillsDir (uninstallSkill demo_manager "fresh"
               (installSkill demo_manager "t1" "fresh" "text"
                  (mkInstallOptions false demo_source) demo_disk).2).2
  = skillsDir demo_disk.
Proof.
  refine (proj1 (proj2 (install_then_uninstall demo_manager demo_manager "t1"
                          "fresh" "text" (mkInstallOptions false demo_source)
                          demo_disk eq_refl eq_refl _ _))).
  - reflexivity.
  - intros e ->%list_elem_of_singleton. done.
Defined.

(** X17: once an install of a name has succeeded, a further install of it
    without force is refused with the conflict error and changes neither the
    files nor the manifest, which still holds an entry of that name. *)
Theorem second_install_conflicts (this other : SkillManager)
    (now now' n c c' : string) (options options' : InstallOptions) (d : Disk) :
  force options = true ∨ skillsDir d !! n = None →
  force options' = false →
  let d' := (installSkill this now n c options d).2 in
  installSkill other now' n c' options' d' = (Throw (Conflict n), d')
  ∧ skillsDir d' !! n ≫= (.!! "SKILL.md") = Some c
  ∧ (1 ≤ count_name n (manifest_of d'))%nat.
Proof.
  intros Hok Hf'. rewrite (installSkill_run this).
  assert (negb (force options) && bool_decide (is_Some (skillsDir d !! n)) = false)
    as ->.
  { destruct Hok as [-> | ->]; [done|].
    rewrite bool_decide_eq_false_2; [apply andb_false_r|by intros [? ?]]. }
  cbn [snd]. split; [|split].
  - rewrite installSkill_run, Hf'. cbn [skillsDir].
    by rewrite lookup_insert_eq, bool_decide_eq_true_2.
  - cbn [skillsDir]. rewrite lookup_insert_eq. simpl.
    by rewrite lookup_insert_eq.
  - rewrite count_name_names. unfold manifest_of at 1.
    cbn [lockFile skills]. rewrite upserted_names.
    apply count_present. case_bool_decide as Hin; [done|].
    apply elem_of_app. right. left.
Qed.

Lemma second_install_conflicts_witness :
  installSkill demo_manager "t2" "fresh" "again"
    (mkInstallOptions false demo_source)
    (installSkill demo_manager "t1" "fresh" "text"
       (mkInstallOptions false demo_source) demo_disk).2
  = (Throw (Conflict "fresh"),
     (installSkill demo_manager "t1" "fresh" "text"
        (mkInstallOptions false demo_source) demo_disk).2).
Proof.
  refine (proj1 (second_install_conflicts demo_manager demo_manager "t1" "t2"
                   "fresh" "text" "again" (mkInstallOptions false demo_source)
                   (mkInstallOptions false demo_source) demo_disk _ _)).
  - by right.
  - reflexivity.
Defined.

Lemma manifest_of_Json (sd : gmap string (gmap string string))
    (m : OutclawManifest) :
  manifest_of (mkDisk sd (Json m)) = m.
Proof. reflexivity. Qed.

(** X18: what a successful install writes to the manifest: an entry for the
    name with the version 1.0.0, the time of the call, the source given and
    the scope of the manager; the manifest version is kept, every entry of
    another name stays at its position, and nothing else is added. *)
Theorem install_records_entry (this : SkillManager) (now n c : string)
    (options : InstallOptions) (d : Disk) :
  force options = true ∨ skillsDir d !! n = None →
  let m := manifest_of d in
  let m' := manifest_of (installSkill this now n c options d).2 in
  (∃ e, e ∈ skills m' ∧ Manager.name e = n ∧ Manager.version e = "1.0.0"
        ∧ installedAt e = now ∧ source e = opt_source options
        ∧ scope e = this_scope this)
  ∧ manifest_version m' = manifest_version m
  ∧ (∀ j e, skills m !! j = Some e → Manager.name e ≠ n →
       skills m' !! j = Some e)
  ∧ (∀ e, e ∈ skills m' → Manager.name e = n ∨ e ∈ skills m).
Proof.
  intros Hok. rewrite installSkill_run.
  assert (negb (force options) && bool_decide (is_Some (skillsDir d !! n)) = false)
    as ->.
  { destruct Hok as [-> | ->]; [done|].
    rewrite bool_decide_eq_false_2; [apply andb_false_r|by intros [? ?]]. }
  cbn [snd]. rewrite manifest_of_Json. cbn [skills manifest_version].
  set (m := manifest_of d). set (x := new_entry this now n (opt_source options)).
  destruct (name_in_dec n (skills m)) as [(e0 & He0 & Hn0)|Hfresh].
  - destruct (upserted_found this now n (opt_source options) m e0 He0 Hn0)
      as (i & e1 & Hi & Hn1 & _ & ->). fold x.
    pose proof (lookup_lt_Some _ _ _ Hi) as Hlt.
    split; [|split; [done|split]].
    + exists x. split; [|done].
      apply list_elem_of_lookup_2 with i. by apply list_lookup_insert_eq.
    + intros j e Hj Hne. rewrite list_lookup_insert_ne; [done|].
      intros ->. congruence.
    + intros e [j Hj]%list_elem_of_lookup_1.
      destruct (decide (i = j)) as [->|Hij].
      * rewrite list_lookup_insert_eq in Hj by done. left. by simplify_eq.
      * rewrite list_lookup_insert_ne in Hj by done.
        right. by apply list_elem_of_lookup_2 with j.
  - rewrite upserted_fresh by done. fold x.
    split; [|split; [done|split]].
    + exists x. split; [|done]. apply elem_of_app. right. left.
    + intros j e Hj _. by apply lookup_app_l_Some.
    + intros e [He|He]%elem_of_app; [by right|].
      apply list_elem_of_singleton in He as ->. by left.
Qed.

Lemma install_records_entry_witness :
  ∃ e, e ∈ skills (manifest_of
                     (installSkill demo_manager "t1" "fresh" "text"
                        (mkInstallOptions false demo_source) demo_disk).2)
       ∧ Manager.name e = "fresh" ∧ Manager.version e = "1.0.0"
       ∧ source e = demo_source.
Proof.
  destruct (install_records_entry demo_manager "t1" "fresh" "text"
              (mkInstallOptions false demo_source) demo_disk)
    as ((e & He & Hn & Hv & _ & Hs & _) & _); [by right|].
  exists e. by repeat split.
Defined.

(** ** The header schema *)

Lemma bind_Ok {A B : Type} (m : result A) (k : A → result B) (b : B) :
  m ≫= k = Ok b → ∃ a, m = Ok a ∧ k a = Ok b.
Proof. destruct m as [a|e]; [eauto|done]. Qed.

Lemma parse_name_Ok (v : option JSValue) (n : string) :
  parse_name v = Ok n →
  v = Some (JString n) ∧ n ≠ EmptyString ∧ JS.all_chars is_name_char n = true.
Proof.
  unfold parse_name. intros (s & Hs & H)%bind_Ok.
  assert (v = Some (JString s)) as ->
    by (destruct v as [[]|]; simplify_eq/=; done).
  destruct (JS.length s <? 1)%nat eqn:El; [done|].
  destruct (JS.all_chars is_name_char s) eqn:Ec; [|done].
  simpl in H. injection H as <-. repeat split; [|done].
  intros ->. done.
Qed.

Lemma parse_description_Ok (v : option JSValue) (dsc : string) :
  parse_description v = Ok dsc →
  v = Some (JString dsc) ∧ (10 ≤ JS.length dsc)%nat.
Proof.
  unfold parse_description. intros (s & Hs & H)%bind_Ok.
  assert (v = Some (JString s)) as ->
    by (destruct v as [[]|]; simplify_eq/=; done).
  destruct (Nat.ltb_spec (JS.length s) 10); [done|].
  injection H as <-. by split.
Qed.

Lemma parse_version_Ok (v : option JSValue) (o : option string) :
  parse_version v = Ok o →
  match o with
  | Some ver => v = Some (JString ver) ∧ is_semver ver = true
  | None => v = None
  end.
Proof.
  unfold parse_version. intros (s & Hs & H)%bind_Ok.
  destruct v as [[]|]; simplify_eq/=; [|done].
  destruct (is_semver _) eqn:E; by simplify_eq.
Qed.

Lemma z_boolean_default_Ok (path : string) (dflt : bool)
    (v : option JSValue) (b : bool) :
  z_boolean_default path dflt v = Ok b →
  (v = None ∧ b = dflt) ∨ v = Some (JBoolean b).
Proof. destruct v as [[]|]; intros; simplify_eq/=; eauto. Qed.

(** X19: every header the schema accepts meets the constraints: the name is
    not empty and made of lower-case letters, digits and hyphens, the
    description has at least 10 code units, a version has the form of three
    numbers separated by dots, and each of the two flags is the value given
    or else its default, false for [disable-model-invocation] and true for
    [user-invocable]. *)
Theorem accepted_header_is_valid
    (is_email is_url : string → bool) (fields : list (string * JSValue))
    (f : SkillFrontmatter) :
  SkillFrontmatterSchema_parse is_email is_url (JObject fields) = Ok f →
  Parser.name f ≠ EmptyString
  ∧ JS.all_chars is_name_char (Parser.name f) = true
  ∧ (10 ≤ JS.length (Parser.description f))%nat
  ∧ (∀ ver, Parser.version f = Some ver → is_semver ver = true)
  ∧ (get "disable-model-invocation" fields = None →
     disable_model_invocation f = false)
  ∧ (get "user-invocable" fields = None → user_invocable f = true)
  ∧ (∀ b, get "disable-model-invocation" fields = Some (JBoolean b) →
       disable_model_invocation f = b)
  ∧ (∀ b, get "user-invocable" fields = Some (JBoolean b) →
       user_invocable f = b).
Proof.
  unfold SkillFrontmatterSchema_parse.
  intros (n & Hn & H)%bind_Ok. intros.
  apply bind_Ok in H as (dsc & Hd & H).
  apply bind_Ok in H as (ver & Hv & H).
  apply bind_Ok in H as (dmi & Hdmi & H).
  apply bind_Ok in H as (ui & Hui & H).
  apply bind_Ok in H as (tools & _ & H).
  apply bind_Ok in H as (hint & _ & H).
  apply bind_Ok in H as (mdl & _ & H).
  apply bind_Ok in H as (ctx & _ & H).
  apply bind_Ok in H as (agt & _ & H).
  apply bind_Ok in H as (lic & _ & H).
  apply bind_Ok in H as (aut & _ & H).
  apply bind_Ok in H as (kws & _ & H).
  apply bind_Ok in H as (rep & _ & H).
  injection H as <-. simpl.
  apply parse_name_Ok in Hn as (_ & Hne & Hc).
  apply parse_description_Ok in Hd as (_ & Hl).
  apply parse_version_Ok in Hv.
  apply z_boolean_default_Ok in Hdmi, Hui.
  repeat split; try done.
  - intros v ->. by destruct Hv.
  - intros Hg. destruct Hdmi as [[_ ->]|Hs]; [done|congruence].
  - intros Hg. destruct Hui as [[_ ->]|Hs]; [done|congruence].
  - intros b Hg. destruct Hdmi as [[Hs _]|Hs]; congruence.
  - intros b Hg. destruct Hui as [[Hs _]|Hs]; congruence.
Qed.

Lemma accepted_header_is_valid_witness :
  Parser.name demo_header ≠ EmptyString
  ∧ (10 ≤ JS.length (Parser.description demo_header))%nat
  ∧ disable_model_invocation demo_header = false
  ∧ user_invocable demo_header = true.
Proof.
  destruct (accepted_header_is_valid (λ _, true) (λ _, true)
              [ ("name", JString "demo");
                ("description", JString "A demonstration skill");
                ("license", JString "MIT");
                ("author", JString "Ada");
                ("keywords", JArray [JString "demo"]);
                ("repository", JString "https://example.org/demo") ]
              demo_header eq_refl)
    as (Hn & _ & Hd & _ & Hdmi & Hui & _).
  split; [exact Hn|]. split; [exact Hd|].
  split; [by apply Hdmi|by apply Hui].
Defined.

(** X20: the header errors come in the order of the schema.  A missing
    name, an empty name and a name with a code unit outside the allowed ones
    are each reported under [name], whatever the rest of the header holds;
    with a valid name, a description of fewer than 10 code units is reported
    under [description]. *)
Theorem header_errors_in_schema_order
    (is_email is_url : string → bool) (fields : list (string * JSValue)) :
  (get "name" fields = None →
   SkillFrontmatterSchema_parse is_email is_url (JObject fields)
   = Throw (ZodError "name" "Required"))
  ∧ (get "name" fields = Some (JString EmptyString) →
     SkillFrontmatterSchema_parse is_email is_url (JObject fields)
     = Throw (ZodError "name" "Name is required"))
  ∧ (∀ n, get "name" fields = Some (JString n) → n ≠ EmptyString →
       JS.all_chars is_name_char n = false →
       SkillFrontmatterSchema_parse is_email is_url (JObject fields)
       = Throw (ZodError "name"
                  "Name must be lowercase alphanumeric with hyphens"))
  ∧ (∀ n dsc, get "name" fields = Some (JString n) → n ≠ EmptyString →
       JS.all_chars is_name_char n = true →
       get "description" fields = Some (JString dsc) →
       (JS.length dsc < 10)%nat →
       SkillFrontmatterSchema_parse is_email is_url (JObject fields)
       = Throw (ZodError "description"
                  "Description should be detailed for good triggering")).
Proof.
  unfold SkillFrontmatterSchema_parse, parse_name, parse_description.
  repeat split.
  - by intros ->.
  - by intros ->.
  - intros n -> Hne Hc. simpl. destruct n; [done|]. simpl in *. by rewrite Hc.
  - intros n dsc -> Hne Hc -> Hl. simpl.
    destruct n; [done|]. simpl in *. rewrite Hc. simpl.
    by destruct (Nat.ltb_spec (JS.length dsc) 10); [|lia].
Qed.

Lemma header_errors_in_schema_order_witness :
  SkillFrontmatterSchema_parse (λ _, true) (λ _, true)
    (JObject [ ("name", JString "demo"); ("description", JString "short") ])
  = Throw (ZodError "description"
             "Description should be detailed for good triggering").
Proof.
  destruct (header_errors_in_schema_order (λ _, true) (λ _, true)
              [ ("name", JString "demo"); ("description", JString "short") ])
    as (_ & _ & _ & Hd).
  apply (Hd "demo" "short"); (done || (vm_compute; lia)).
Defined.

(** X21: the schema reads the keys it knows and nothing else: two headers
    that agree on each known key parse to the same result, so the order of
    the keys does not matter, and a key the schema does not know can be added
    without any effect. *)
Theorem schema_reads_known_keys_only
    (is_email is_url : string → bool) (fields fields' : list (string * JSValue)) :
  ((∀ key, key ∈ known_keys → get key fields = get key fields') →
   SkillFrontmatterSchema_parse is_email is_url (JObject fields)
   = SkillFrontmatterSchema_parse is_email is_url (JObject fields'))
  ∧ (∀ k v, k ∉ known_keys →
       SkillFrontmatterSchema_parse is_email is_url (JObject ((k, v) :: fields))
       = SkillFrontmatterSchema_parse is_email is_url (JObject fields)).
Proof.
  assert (Hgen : ∀ a b : list (string * JSValue),
    (∀ key, key ∈ known_keys → get key a = get key b) →
    SkillFrontmatterSchema_parse is_email is_url (JObject a)
    = SkillFrontmatterSchema_parse is_email is_url (JObject b)).
  { intros a b H. unfold SkillFrontmatterSchema_parse.
    by rewrite !H
      by (unfold known_keys;
          repeat first [apply list_elem_of_here | apply list_elem_of_further]). }
  split; [apply Hgen|].
  intros k v Hk. apply Hgen. intros key Hkey. simpl.
  destruct (String.eqb_spec k key) as [->|]; [done|done].
Qed.

Lemma schema_reads_known_keys_only_witness :
  SkillFrontmatterSchema_parse (λ _, true) (λ _, true)
    (JObject (("target-audience", JString "everyone") :: [])) =
  SkillFrontmatterSchema_parse (λ _, true) (λ _, true) (JObject []).
Proof.
  apply (proj2 (schema_reads_known_keys_only (λ _, true) (λ _, true) [] [])).
  unfold known_keys. intros H.
  repeat (apply elem_of_cons in H as [H|H]; [done|]).
  by apply elem_of_nil in H.
Defined.

Lemma trim_after_space (s : string) : JS.trim (String " " s) = JS.trim s.
Proof. reflexivity. Qed.

Lemma split_after_space (s : string) :
  JS.trim <$> JS.split "," (String " " s) = JS.trim <$> JS.split "," s.
Proof.
  cbn [JS.split]. change (Ascii.eqb " " ",") with false. cbn iota.
  destruct (split_nonempty "," s) as (h & t & ->).
  by rewrite !fmap_cons, trim_after_space.
Qed.

Lemma tools_round_trip (tools : list string) :
  tools ≠ [] →
  (∀ t, t ∈ tools → JS.includes t "," = false ∧ JS.trim t = t) →
  JS.trim <$> JS.split "," (JS.join ", " tools) = tools.
Proof.
  induction tools as [|t [|t2 r] IH]; [done|..]; intros _ H.
  - destruct (H t) as [Hc Ht]; [left|].
    simpl. rewrite (split_no_sep ","%char t Hc). simpl. by rewrite Ht.
  - destruct (H t) as [Hc Ht]; [left|].
    change (JS.join ", " (t :: t2 :: r))
      with (t +:+ String "," (String " " (JS.join ", " (t2 :: r)))).
    rewrite (split_app_sep ","%char t _ Hc), fmap_cons, Ht, split_after_space.
    f_equal. apply IH; [done|]. intros x Hx. apply H. by right.
Qed.

(** X22: the two written forms of [allowed-tools] read back as the same
    list.  For a non-empty list of tools that hold no comma and no white
    space at their ends, the comma-separated text that [generateSkillMd]
    writes and the array of the same strings are both accepted by the schema
    and both give the list itself. *)
Theorem allowed_tools_round_trip (tools : list string) :
  tools ≠ [] →
  (∀ t, t ∈ tools → JS.includes t "," = false ∧ JS.trim t = t) →
  parse_allowed_tools (Some (JString (JS.join ", " tools))) = Ok (Some tools)
  ∧ parse_allowed_tools (Some (JArray (JString <$> tools))) = Ok (Some tools).
Proof.
  intros Hne H. split.
  - unfold parse_allowed_tools. by rewrite tools_round_trip.
  - unfold parse_allowed_tools.
    assert (strings_of (JString <$> tools) = Some tools) as ->; [|done].
    clear. induction tools as [|t l IH]; [done|].
    rewrite fmap_cons. cbn [strings_of]. by rewrite IH.
Qed.

Lemma allowed_tools_round_trip_witness :
  parse_allowed_tools (Some (JString "Read, Grep, Bash"))
  = Ok (Some ["Read"; "Grep"; "Bash"]).
Proof.
  apply (proj1 (allowed_tools_round_trip ["Read"; "Grep"; "Bash"]
                  ltac:(done)
                  ltac:(intros t Ht;
                        repeat (apply elem_of_cons in Ht as [->|Ht]; [done|]);
                        by apply elem_of_nil in Ht))).
Defined.

(** X23: a regenerated header states both flags.  For every header the
    schema accepts, the lines that [generateSkillMd] writes start with the
    name and the description and hold a line for
    [disable-model-invocation] and one for [user-invocable], with the parsed
    values, also when the parsed document left the flags out and the schema
    filled in the defaults. *)
Theorem regenerated_header_states_flags
    (is_email is_url : string → bool) (fields : list (string * JSValue))
    (f : SkillFrontmatter) :
  SkillFrontmatterSchema_parse is_email is_url (JObject fields) = Ok f →
  ∃ rest,
    yamlLines (partial f)
    = ("name: " +:+ Parser.name f)
        :: ("description: " +:+ Parser.description f) :: rest
    ∧ ("disable-model-invocation: "
         +:+ string_of_bool (disable_model_invocation f)) ∈ rest
    ∧ ("user-invocable: " +:+ string_of_bool (user_invocable f)) ∈ rest.
Proof.
  unfold SkillFrontmatterSchema_parse.
  intros (n & Hn & H)%bind_Ok.
  apply bind_Ok in H as (dsc & Hd & H).
  apply parse_name_Ok in Hn as (_ & Hne & _).
  apply parse_description_Ok in Hd as (_ & Hl).
  assert (Hy : ∀ g : SkillFrontmatter,
    Parser.name g = n → Parser.description g = dsc →
    ∃ rest,
      yamlLines (partial g)
      = ("name: " +:+ Parser.name g)
          :: ("description: " +:+ Parser.description g) :: rest
      ∧ ("disable-model-invocation: "
           +:+ string_of_bool (disable_model_invocation g)) ∈ rest
      ∧ ("user-invocable: " +:+ string_of_bool (user_invocable g)) ∈ rest).
  { intros g Hgn Hgd. unfold yamlLines, partial. cbn [p_name p_description
      p_version p_disable_model_invocation p_user_invocable p_allowed_tools
      p_argument_hint p_model p_context p_agent].
    rewrite Hgn, Hgd.
    assert (line_if_truthy "name" (Some n) = ["name: " +:+ n]) as ->
      by by destruct n.
    assert (line_if_truthy "description" (Some dsc) = ["description: " +:+ dsc])
      as -> by (destruct dsc; [simpl in Hl; lia|done]).
    eexists. split; [reflexivity|].
    split; apply elem_of_app; right; [left|].
    apply elem_of_app; right; left. }
  repeat (apply bind_Ok in H as (? & _ & H)).
  injection H as <-. by apply Hy.
Qed.

Lemma regenerated_header_states_flags_witness :
  ∃ rest,
    yamlLines (partial bare_header)
    = "name: demo" :: "description: A demonstration skill" :: rest
    ∧ "disable-model-invocation: false" ∈ rest
    ∧ "user-invocable: true" ∈ rest.
Proof.
  apply (regenerated_header_states_flags (λ _, true) (λ _, true)
           [ ("name", JString "demo");
             ("description", JString "A demonstration skill") ]
           bare_header eq_refl).
Defined.

Lemma trimEnd_idempotent (s : string) : JS.trimEnd (JS.trimEnd s) = JS.trimEnd s.
Proof.
  induction s as [|c s IH]; [done|]. cbn [JS.trimEnd].
  destruct (JS.trimEnd s) as [|x r] eqn:E.
  - destruct (JS.is_white c) eqn:Ew; [done|]. simpl. by rewrite Ew.
  - simpl in *. by rewrite IH.
Qed.

Lemma trimStart_head (s : string) :
  match JS.trimStart s with
  | EmptyString => True
  | String c _ => JS.is_white c = false
  end.
Proof.
  induction s as [|c s IH]; [done|]. simpl.
  destruct (JS.is_white c) eqn:E; [done|]. simpl. done.
Qed.

Lemma trimStart_trimEnd (t : string) :
  match t with
  | EmptyString => True
  | String c _ => JS.is_white c = false
  end →
  JS.trimStart (JS.trimEnd t) = JS.trimEnd t.
Proof.
  destruct t as [|c t]; [done|]. intros Hc. cbn [JS.trimEnd].
  destruct (JS.trimEnd t); rewrite ?Hc; simpl; by rewrite Hc.
Qed.

Lemma trim_idempotent (s : string) : JS.trim (JS.trim s) = JS.trim s.
Proof.
  unfold JS.trim.
  rewrite (trimStart_trimEnd (JS.trimStart s) (trimStart_head s)).
  apply trimEnd_idempotent.
Qed.

(** X24: what [parse] returns: the content is the text after the header
    with the white space at both ends removed, so trimming it again changes
    nothing; the path is the directory given; and the header is the one the
    schema made of the header block.  When the block fails the schema,
    [parse] throws the schema's error. *)
Theorem parse_returns_trimmed_content
    (is_email is_url : string → bool)
    (matter : string → result (JSValue * string))
    (basePath doc : string) :
  (∀ sk, parse is_email is_url matter basePath doc = Ok sk →
     JS.trim (Parser.content sk) = Parser.content sk
     ∧ path sk = basePath
     ∧ ∃ data body,
         matter doc = Ok (data, body)
         ∧ Parser.content sk = JS.trim body
         ∧ SkillFrontmatterSchema_parse is_email is_url data
           = Ok (frontmatter sk))
  ∧ (∀ data body e,
       matter doc = Ok (data, body) →
       SkillFrontmatterSchema_parse is_email is_url data = Throw e →
       parse is_email is_url matter basePath doc = Throw e).
Proof.
  unfold parse. split.
  - intros sk ([data body] & Hm & H)%bind_Ok.
    apply bind_Ok in H as (f & Hf & H). injection H as <-. simpl.
    split; [apply trim_idempotent|]. split; [done|]. eauto.
  - intros data body e -> Hf. simpl. by rewrite Hf.
Qed.

Lemma parse_returns_trimmed_content_witness :
  parse (λ _, true) (λ _, true)
    (λ _, Ok (JObject [ ("name", JString "demo");
                        ("description", JString "short") ], "Body"))
    "skills/demo" "any text"
  = Throw (ZodError "description"
             "Description should be detailed for good triggering").
Proof.
  apply (proj2 (parse_returns_trimmed_content (λ _, true) (λ _, true)
                  (λ _, Ok (JObject [ ("name", JString "demo");
                                      ("description", JString "short") ],
                            "Body"))
                  "skills/demo" "any text")
               (JObject [ ("name", JString "demo");
                          ("description", JString "short") ]) "Body");
    reflexivity.
Defined.

(** ** Where the global scope lives *)

Section paths_properties.

Variable homedir : string.
Variable cwd : string.
Variable path_resolve : string → string.
Variable path_join : list string → string.

Lemma readOpenclawConfig_cached env files cache r c1 env' files' :
  Paths.readOpenclawConfig homedir path_resolve path_join env files cache = (r, c1) →
  Paths.readOpenclawConfig homedir path_resolve path_join env' files' c1 = (r, c1).
Proof.
  unfold Paths.readOpenclawConfig.
  destruct cache as [cached|].
  - by intros [= <- <-].
  - destruct (files _); by intros [= <- <-].
Qed.

Lemma getWorkspaceFromConfig_cached env files cache w c1 env' files' :
  Paths.getWorkspaceFromConfig homedir path_resolve path_join env files cache = (w, c1) →
  Paths.getWorkspaceFromConfig homedir path_resolve path_join env' files' c1 = (w, c1).
Proof.
  unfold Paths.getWorkspaceFromConfig.
  destruct (Paths.readOpenclawConfig _ _ _ env files cache) as [r c] eqn:E.
  intros Hw.
  assert (c = c1) as -> by (destruct r; by inversion Hw).
  rewrite (readOpenclawConfig_cached _ _ _ _ _ env' files' E).
  exact Hw.
Qed.

(** X25: in the global scope the skills directory and the lock file lie
    under one root, even when the environment or the configuration file
    change between the two calls: the configuration is read once and the
    second call answers from the cache, which it leaves as it is. *)
Theorem skills_and_lock_share_a_root env files env' files' cache :
  ∃ root c1,
    Paths.getSkillsPathAsync homedir cwd path_resolve path_join
      env files Manager.global cache = (path_join [root; "skills"], c1)
    ∧ Paths.getLockFilePathAsync homedir cwd path_resolve path_join
        env' files' Manager.global c1 = (path_join [root; "lock.json"], c1)
    ∧ is_Some c1.
Proof.
  destruct (Paths.getWorkspaceFromConfig homedir path_resolve path_join
              env files cache) as [w c1] eqn:E.
  exists (Paths.root_of homedir path_join w), c1.
  unfold Paths.getSkillsPathAsync, Paths.getLockFilePathAsync.
  rewrite (getWorkspaceFromConfig_cached _ _ _ _ _ env' files' E), E.
  split_and!; [done..|].
  revert E. unfold Paths.getWorkspaceFromConfig, Paths.readOpenclawConfig.
  destruct cache as [[c|]|]; [| |destruct (files _)]; intros [= _ <-]; eauto.
Qed.

(** X26: a workspace of [agents.defaults] that consists of white space is
    taken, being truthy, and resolves to the empty string; the global skills
    directory then falls back to the default workspace, and neither the
    legacy [agent.workspace] nor the list of agents is looked at. *)
Theorem blank_workspace_falls_back_to_default env config w :
  (a ← Paths.agents config; d ← Paths.defaults a; Paths.defaults_workspace d)
    = Some w →
  JS.truthy w = true →
  JS.trim w = EmptyString →
  Paths.workspaceOf homedir path_resolve config = Some EmptyString
  ∧ Paths.getSkillsPathAsync homedir cwd path_resolve path_join
      env (Paths.always config) Manager.global None
    = (path_join [Paths.getDefaultWorkspace homedir path_join; "skills"],
       Some (Some config)).
Proof.
  intros Hw Ht Hb.
  assert (Paths.workspaceOf homedir path_resolve config = Some EmptyString) as Hws.
  { unfold Paths.workspaceOf. rewrite Hw. cbn [JS.truthy_opt]. rewrite Ht.
    cbn [fmap option_fmap option_map]. unfold Paths.resolveUserPath.
    by rewrite Hb. }
  split; [exact Hws|].
  unfold Paths.getSkillsPathAsync, Paths.getWorkspaceFromConfig,
    Paths.readOpenclawConfig, Paths.always.
  by rewrite Hws.
Qed.

End paths_properties.

Lemma blank_workspace_falls_back_to_default_witness :
  Paths.getSkillsPathAsync "/home/user" "/work" Paths.demo_resolve Paths.demo_join
    Paths.no_env (Paths.always (Paths.config_with_defaults "  "))
    Manager.global None
  = ("/home/user/.openclaw/workspace/skills",
     Some (Some (Paths.config_with_defaults "  "))).
Proof.
  exact (proj2 (blank_workspace_falls_back_to_default "/home/user" "/work"
                  Paths.demo_resolve Paths.demo_join Paths.no_env
                  (Paths.config_with_defaults "  ") "  "
                  eq_refl eq_refl eq_refl)).
Defined.

(** ** Logging out *)

Lemma clearConfig_Missing file : Config.clearConfig file = Config.Missing.
Proof. by destruct file. Qed.

Lemma isLoggedIn_Missing env :
  Config.isLoggedIn env Config.Missing
  = Ok (JS.truthy_opt (Config.OUTCLAW_API_KEY env)).
Proof.
  unfold Config.isLoggedIn, Config.getApiKey.
  destruct (JS.truthy_opt (Config.OUTCLAW_API_KEY env)) eqn:E; simpl; by rewrite ?E.
Qed.

(** X27: a logout that reports success has removed the configuration file,
    and nothing else: afterwards the tool counts as logged in exactly when
    the environment holds a key, which the command cannot remove. *)
Theorem logout_leaves_environment_key confirm env options file lines file' :
  Commands.logoutCommand confirm env options file
    = (lines, Commands.Returned (), file') →
  Commands.LogSuccess "Logged out successfully." ∈ lines →
  file' = Config.Missing
  ∧ Config.getApiKey env file'
    = Ok (JS.or_else (Config.OUTCLAW_API_KEY env) None)
  ∧ Config.isLoggedIn env file'
    = Ok (JS.truthy_opt (Config.OUTCLAW_API_KEY env)).
Proof.
  intros Hrun Hin.
  assert (file' = Config.Missing) as ->.
  { revert Hrun Hin.
    unfold Commands.logoutCommand, Commands.bindC, Commands.liftR,
      Commands.say, Commands.ret.
    destruct (Config.isLoggedIn env file) as [[|]|]; simpl;
      [|intros [= <- <-] Hin; by apply list_elem_of_singleton in Hin|done].
    destruct (Config.read (Config.loadConfig file) "agent_name" Config.agent_name);
      simpl;
      [|done].
    destruct (Commands.l_yes options); simpl;
      [intros [= <- <-] _; apply clearConfig_Missing|].
    destruct (confirm _) as [[|]|]; simpl;
      [intros [= <- <-] _; apply clearConfig_Missing| |done].
    intros [= <- <-] Hin.
    apply elem_of_cons in Hin as [Hin|Hin]; [done|].
    by apply list_elem_of_singleton in Hin. }
  split; [done|]. split; [|apply isLoggedIn_Missing].
  unfold Config.getApiKey, JS.or_else.
  by destruct (JS.truthy_opt (Config.OUTCLAW_API_KEY env)).
Qed.

Lemma logout_leaves_environment_key_witness :
  Config.isLoggedIn Commands.key_in_env Config.Missing = Ok true.
Proof.
  refine (proj2 (proj2 (logout_leaves_environment_key Commands.agree
            Commands.key_in_env (Commands.mkLogoutOptions false)
            Commands.saved_login _ Config.Missing eq_refl _))).
  apply elem_of_cons; right. apply elem_of_cons; by left.
Defined.

(** ** The install and uninstall commands *)

Section store_relation.

Context {S : Type}.
Variable R : S → S → Prop.
Hypothesis R_refl : ∀ s, R s s.
Hypothesis R_trans : ∀ s1 s2 s3, R s1 s2 → R s2 s3 → R s1 s3.



Lemma say_related (l : Commands.Line) s : R s (Commands.say l s).2.
Proof. apply R_refl. Qed.

Lemma ret_related {A : Type} (a : A) s : R s (Commands.ret a s).2.
Proof. apply R_refl. Qed.

Lemma raise_related {A : Type} (e : exn) s : R s (@Commands.raise S A e s).2.
Proof. apply R_refl. Qed.

Lemma exit_related {A : Type} (code : Z) s : R s (@Commands.exit S A code s).2.
Proof. apply R_refl. Qed.



End store_relation.





Section commands_properties.

Variable url_after_scheme : string → string → option string.
Variable is_email : string → bool.
Variable is_url : string → bool.
Variable matter : string → result (Parser.JSValue * string).
Variable fetch : string → result GitHub.Response.
Variable library_message : exn → string.
Variable new_ApiClient : string → option string → Registry.ApiClient.
Variable confirm : string → result bool.
Variable now : string.
Variable skillsPath : Manager.Scope → string.





Lemma skillMd_directory (d : Manager.Disk) (n : string) :
  is_Some (Manager.skillsDir d !! n ≫= (.!! "SKILL.md")) →
  is_Some (Manager.skillsDir d !! n).
Proof. destruct (Manager.skillsDir d !! n); [by eexists|by intros [? ?]]. Qed.

Lemma install_and_report_conflict options n c src d :
  Commands.i_force options = false →
  is_Some (Manager.skillsDir d !! n) →
  Commands.install_and_report now skillsPath options n c src d
  = ([Commands.SpinText ("Installing " +:+ n +:+ "...")],
     Commands.Raised (Manager.Conflict n), d).
Proof.
  intros Hf Hd.
  unfold Commands.install_and_report, Commands.bindC at 1, Commands.say.
  unfold Commands.bindC at 1, Commands.liftM.
  rewrite installSkill_run, Hf. cbn [Manager.force negb andb].
  by rewrite bool_decide_eq_true_2.
Qed.

(** X29: agreeing to overwrite does not overwrite.  When the skill fetched
    from a hosted repository is installed already and [--force] is not given,
    the command asks (or takes [--yes]), starts to install, and then fails
    with the conflict of the manager, which was told [force: false]: the
    process exits with code 1 and the disk is as it was. *)
Theorem confirmed_overwrite_still_conflicts env file specifier options d
    source n c :
  Resolver.parseSkillSpecifier url_after_scheme specifier = Ok source →
  Resolver.type source = Resolver.github →
  GitHub.fetchFromGitHub fetch source = Ok (GitHub.mkFetched (Some n) c) →
  is_Some (Manager.skillsDir d !! n ≫= (.!! "SKILL.md")) →
  Commands.i_force options = false →
  Commands.i_yes options = true
  ∨ confirm (Commands.overwrite_question n) = Ok true →
  ∃ lines,
    Commands.installCommand url_after_scheme fetch library_message
      new_ApiClient confirm now skillsPath env file specifier options d
    = (lines ++ [ Commands.SpinStart "Installing...";
                  Commands.SpinText ("Installing " +:+ n +:+ "...");
                  Commands.SpinFail "Installation failed";
                  Commands.LogError (Manager.already_exists_message n) ],
       Commands.Exited 1, d).
Proof.
  intros Hparse Htype Hfetch Hmd Hforce Hyes.
  pose proof (skillMd_directory _ _ Hmd) as Hdir.
  unfold Commands.installCommand.
  unfold Commands.bindC at 1, Commands.say at 1.
  unfold Commands.catch, Commands.bindC at 1. rewrite Hparse.
  cbn [Commands.liftR]. rewrite Htype.
  unfold Commands.bindC at 1, Commands.from_github.
  unfold Commands.bindC at 1, Commands.say at 1.
  unfold Commands.bindC at 1. rewrite Hfetch. cbn [Commands.liftR].
  unfold Commands.bindC at 1, Commands.say at 1, Commands.ret.
  cbn [GitHub.name GitHub.content].
  unfold Commands.check_and_install.
  unfold Commands.bindC at 1, Commands.liftM, Manager.skillExists,
    Manager.pathExists_skillMd.
  rewrite bool_decide_eq_true_2 by done. rewrite Hforce. cbn [negb andb].
  unfold Commands.bindC at 1, Commands.say at 1.
  destruct Hyes as [Hyes|Hyes].
  - rewrite Hyes. cbn [negb].
    unfold Commands.bindC at 1, Commands.say at 1.
    rewrite install_and_report_conflict by done.
    unfold Commands.install_failed, Commands.bindC, Commands.say, Commands.exit.
    cbn [Commands.message_of Manager.Conflict app].
    by eexists [_; _; _; _].
  - destruct (Commands.i_yes options); cbn [negb].
    + unfold Commands.bindC at 1, Commands.say at 1.
      rewrite install_and_report_conflict by done.
      unfold Commands.install_failed, Commands.bindC, Commands.say, Commands.exit.
      by eexists [_; _; _; _].
    + unfold Commands.bindC at 1, Commands.say at 1.
      unfold Commands.bindC at 1. rewrite Hyes. cbn [Commands.liftR negb].
      unfold Commands.bindC at 1, Commands.say at 1.
      rewrite install_and_report_conflict by done.
      unfold Commands.install_failed, Commands.bindC, Commands.say, Commands.exit.
      by eexists [_; _; _; _; _].
Qed.

(** X30: the uninstall command removes only what reads as a skill.  When
    [getSkill] finds no valid document under the name, the command reports
    that the skill is not found and exits with code 1, and nothing is
    removed; this is so also when the directory is there, which the manager
    itself would have removed. *)
Theorem unreadable_skill_is_not_uninstalled n options d :
  let manager :=
    Commands.manager_of skillsPath (Commands.scope_of (Commands.u_global options)) in
  Manager.getSkill is_email is_url matter manager n d = None →
  Commands.uninstallCommand is_email is_url matter library_message confirm
    skillsPath n options d
  = ([Commands.LogError
        (Commands.not_found_in_message n
           (Commands.scope_of (Commands.u_global options)))],
     Commands.Exited 1, d)
  ∧ (is_Some (Manager.skillsDir d !! n) →
     (Manager.uninstallSkill manager n d).1 = Ok ()
     ∧ Manager.skillsDir (Manager.uninstallSkill manager n d).2 !! n = None).
Proof.
  intros manager Hget. split.
  - unfold Commands.uninstallCommand, Commands.catch, Commands.bindC at 1.
    fold manager. by rewrite Hget.
  - intros Hd. rewrite uninstallSkill_run, bool_decide_eq_true_2 by done.
    split; [done|]. apply lookup_delete_eq.
Qed.

End commands_properties.



Lemma confirmed_overwrite_still_conflicts_witness :
  ∃ lines,
    Commands.installCommand Resolver.simple_after_scheme
      (Commands.demo_fetch Commands.demo_hosted_text)
      Commands.no_library_message Commands.demo_new_ApiClient Commands.agree
      "t1" Commands.demo_skillsPath Commands.no_key Config.Missing
      "owner/demo" (Commands.mkInstallOptions false false false)
      Manager.demo_disk
    = (lines ++ [ Commands.SpinStart "Installing...";
                  Commands.SpinText "Installing demo...";
                  Commands.SpinFail "Installation failed";
                  Commands.LogError (Manager.already_exists_message "demo") ],
       Commands.Exited 1, Manager.demo_disk).
Proof.
  apply (confirmed_overwrite_still_conflicts Resolver.simple_after_scheme
           (Commands.demo_fetch Commands.demo_hosted_text)
           Commands.no_library_message Commands.demo_new_ApiClient
           Commands.agree "t1" Commands.demo_skillsPath Commands.no_key
           Config.Missing "owner/demo"
           (Commands.mkInstallOptions false false false) Manager.demo_disk
           (Resolver.hosted_ref "owner" "demo" None None) "demo"
           Commands.demo_hosted_text).
  - reflexivity.
  - reflexivity.
  - reflexivity.
  - by eexists.
  - reflexivity.
  - by right.
Defined.

Lemma unreadable_skill_is_not_uninstalled_witness :
  Commands.uninstallCommand (λ _, true) (λ _, true) Parser.demo_matter
    Commands.no_library_message Commands.agree Commands.demo_skillsPath
    "demo" (Commands.mkUninstallOptions false true) Manager.half_written_disk
  = ([Commands.LogError
        (Commands.not_found_in_message "demo" Manager.project)],
     Commands.Exited 1, Manager.half_written_disk)
  ∧ (Manager.uninstallSkill Manager.demo_manager "demo"
       Manager.half_written_disk).1 = Ok ().
Proof.
  destruct (unreadable_skill_is_not_uninstalled (λ _, true) (λ _, true)
              Parser.demo_matter Commands.no_library_message Commands.agree
              Commands.demo_skillsPath "demo"
              (Commands.mkUninstallOptions false true)
              Manager.half_written_disk eq_refl) as [Hcmd Hmgr].
  split; [exact Hcmd|].
  apply Hmgr. by eexists.
Defined.
